(** * Towel-E-Commerce storefront: local-storage backed cart, orders and profile

    A shallow embedding of the four view components of the storefront
    (Navbar with its CartModal, AllOrders, UserProfile) and of the browser
    services they call (localStorage, JSON.parse / JSON.stringify, the
    window object and its 'storage' listeners).

    Modelling conventions.
    - A JS string is a Rocq [string]; every character stands for one code
      unit below 256, and [toLowerCase] and [trim] are those of JS on such
      code units.
    - A JS [number] held by a record is a safe integer, [JSNumber.t]: an
      integer of magnitude at most [2 ^ 53 - 1], which is a double and is
      printed in plain decimal.  The sums and products of the components
      are those of doubles: the exact result rounded to the nearest double.
      Numbers with a fraction are outside this model.
    - [JSON.parse] throws [SyntaxError] exactly on the texts that are not
      JSON.  On a text that is JSON and holds a number literal with a
      fraction or an exponent, an integer that is not safe, or a [\u]
      escape above 255, it answers [OutOfModel], never a wrong value.
    - The components hold typed records; TypeScript does not check what
      [JSON.parse] returns, so a stored text that is JSON but not an array
      of the declared records also leaves the model.
    - A call either returns, throws, or leaves the model: type [result]. *)

From Stdlib Require Import ZArith NArith List String Ascii Lia Bool.
From Stdlib Require Import Decimal DecimalN DecimalFacts.
From stdpp Require Import gmap strings list.
Import ListNotations.

Set Warnings "-register-all".

Local Open Scope Z_scope.
Local Open Scope list_scope.

(** ** Results of calls *)

Inductive exn : Type := SyntaxError | TypeError.

Inductive result (A : Type) : Type :=
| Ok (a : A)
| Throw (e : exn)
| OutOfModel.

Arguments Ok {A} a.
Arguments Throw {A} e.
Arguments OutOfModel {A}.

Definition rbind {A B : Type} (r : result A) (k : A -> result B) : result B :=
  match r with
  | Ok a => k a
  | Throw e => Throw e
  | OutOfModel => OutOfModel
  end.

Notation "'let*' p ':=' r 'in' k" := (rbind r (fun p => k))
  (at level 10, p pattern, r at level 100, k at level 200).

Definition of_option {A : Type} (o : option A) : result A :=
  match o with
  | Some a => Ok a
  | None => OutOfModel
  end.

(** ** Numbers

    A number held by a record is a safe integer: on these a double is the
    integer itself, and [JSON.stringify] prints it in plain decimal.  The
    sums and products the components compute are those of doubles: the
    exact result rounded to the nearest double, ties to even.  The values
    computed from safe integers stay far below [2 ^ 1024], where doubles
    overflow.  The two zeros of doubles are one number here: the
    comparisons, [toFixed] and [JSON.stringify] do not tell them apart. *)

Module JSNumber.

Definition max_safe : Z := 2 ^ 53 - 1.

Definition is_safe (z : Z) : bool := (- max_safe <=? z) && (z <=? max_safe).

Record t : Type := mk {
  value : Z;
  value_is_safe : is_safe value = true
}.

Definition of_Z (z : Z) : option t :=
  match Bool.bool_dec (is_safe z) true with
  | left H => Some (mk z H)
  | right _ => None
  end.

Definition zero : t := mk 0 eq_refl.

(** The number written [z], for a safe [z]. *)
Definition num (z : Z) : t :=
  match of_Z z with
  | Some n => n
  | None => zero
  end.

(** The double nearest to an integer.  From [2 ^ 53] on the doubles are
    the multiples of [2 ^ e] with a quotient below [2 ^ 53]; a tie goes to
    the even quotient. *)
Definition round_double (z : Z) : Z :=
  let a := Z.abs z in
  if a <? 2 ^ 53 then z
  else
    let e := Z.log2 a - 52 in
    let q := a / 2 ^ e in
    let r := a mod 2 ^ e in
    let half := 2 ^ (e - 1) in
    let m :=
      if r <? half then q
      else if half <? r then q + 1
      else if Z.even q then q else q + 1 in
    Z.sgn z * (m * 2 ^ e).

(** [a + b] and [a * b] on integer-valued doubles. *)
Definition add (a b : Z) : Z := round_double (a + b).
Definition mul (a b : Z) : Z := round_double (a * b).

End JSNumber.

(** ** JSON values, JSON.stringify and JSON.parse

    The parser follows the grammar of JSON on every text: it throws
    [SyntaxError] exactly on the texts that are not JSON.  A text that is
    JSON but holds a number that is not a safe integer written without
    fraction and exponent, or a [\u] escape above 255, is read to its end
    and then leaves the model. *)

Module JSON.

Inductive json : Type :=
| JNull
| JBool (b : bool)
| JNum (n : JSNumber.t)
| JStr (s : string)
| JArr (l : list json)
| JObj (m : list (string * json)).

Definition chars (s : string) : list ascii := list_ascii_of_string s.
Definition text (l : list ascii) : string := string_of_list_ascii l.

Definition code (c : ascii) : N := N_of_ascii c.

Definition dquote : ascii := "034"%char.
Definition backslash : ascii := "092"%char.

Definition is_ws (c : ascii) : bool :=
  Ascii.eqb c " " || Ascii.eqb c "009" || Ascii.eqb c "010" || Ascii.eqb c "013".

Fixpoint skip_ws (s : list ascii) : list ascii :=
  match s with
  | c :: r => if is_ws c then skip_ws r else s
  | [] => []
  end.

(** *** Numbers *)

Fixpoint print_uint (d : uint) : list ascii :=
  match d with
  | Nil => []
  | D0 d => "0"%char :: print_uint d
  | D1 d => "1"%char :: print_uint d
  | D2 d => "2"%char :: print_uint d
  | D3 d => "3"%char :: print_uint d
  | D4 d => "4"%char :: print_uint d
  | D5 d => "5"%char :: print_uint d
  | D6 d => "6"%char :: print_uint d
  | D7 d => "7"%char :: print_uint d
  | D8 d => "8"%char :: print_uint d
  | D9 d => "9"%char :: print_uint d
  end.

Definition digit_ctor (c : ascii) : option (uint -> uint) :=
  if Ascii.eqb c "0" then Some D0
  else if Ascii.eqb c "1" then Some D1
  else if Ascii.eqb c "2" then Some D2
  else if Ascii.eqb c "3" then Some D3
  else if Ascii.eqb c "4" then Some D4
  else if Ascii.eqb c "5" then Some D5
  else if Ascii.eqb c "6" then Some D6
  else if Ascii.eqb c "7" then Some D7
  else if Ascii.eqb c "8" then Some D8
  else if Ascii.eqb c "9" then Some D9
  else None.

Definition is_digit (c : ascii) : bool :=
  match digit_ctor c with Some _ => true | None => false end.

Fixpoint read_uint (s : list ascii) : uint * list ascii :=
  match s with
  | [] => (Nil, [])
  | c :: r =>
      match digit_ctor c with
      | Some k => let '(d, r') := read_uint r in (k d, r')
      | None => (Nil, s)
      end
  end.

(** A safe integer in plain decimal, as [JSON.stringify] writes it. *)
Definition print_Z (z : Z) : list ascii :=
  if z <? 0 then "-"%char :: print_uint (N.to_uint (Z.abs_N z))
  else print_uint (N.to_uint (Z.to_N z)).

Definition is_nil (d : uint) : bool :=
  match d with
  | Nil => true
  | _ => false
  end.

(** The fraction of a number literal: [Ok (true, rest)] after a point and
    its digits, [Ok (false, s)] when there is no point. *)
Definition read_fraction (s : list ascii) : result (bool * list ascii) :=
  match s with
  | c :: r =>
      if Ascii.eqb c "." then
        let '(f, r') := read_uint r in
        if is_nil f then Throw SyntaxError else Ok (true, r')
      else Ok (false, s)
  | [] => Ok (false, s)
  end.

Definition skip_sign (s : list ascii) : list ascii :=
  match s with
  | c :: r => if Ascii.eqb c "+" || Ascii.eqb c "-" then r else s
  | [] => []
  end.

(** The exponent of a number literal, in the same way. *)
Definition read_exponent (s : list ascii) : result (bool * list ascii) :=
  match s with
  | c :: r =>
      if Ascii.eqb c "e" || Ascii.eqb c "E" then
        let '(x, r') := read_uint (skip_sign r) in
        if is_nil x then Throw SyntaxError else Ok (true, r')
      else Ok (false, s)
  | [] => Ok (false, s)
  end.

(** A number literal after its sign.  The flag of the result tells whether
    the value is in the model: an integer literal of a safe integer. *)
Definition parse_number (negative : bool) (s : list ascii)
  : result (bool * json * list ascii) :=
  let '(d, r) := read_uint s in
  match d with
  | Nil => Throw SyntaxError
  | D0 (D0 _ | D1 _ | D2 _ | D3 _ | D4 _ | D5 _ | D6 _ | D7 _ | D8 _ | D9 _) =>
      Throw SyntaxError
  | _ =>
      let* (fraction, r1) := read_fraction r in
      let* (exponent, r2) := read_exponent r1 in
      let n := Z.of_N (N.of_uint d) in
      match JSNumber.of_Z (if negative then - n else n) with
      | Some k => Ok (negb (fraction || exponent), JNum k, r2)
      | None => Ok (false, JNum JSNumber.zero, r2)
      end
  end.

(** *** Strings *)

Definition hex_digit (n : N) : ascii :=
  nth (N.to_nat n) (chars "0123456789abcdef") "0"%char.

Definition escape_char (c : ascii) : list ascii :=
  if Ascii.eqb c dquote then [backslash; dquote]
  else if Ascii.eqb c backslash then [backslash; backslash]
  else if Ascii.eqb c "008" then [backslash; "b"%char]
  else if Ascii.eqb c "009" then [backslash; "t"%char]
  else if Ascii.eqb c "010" then [backslash; "n"%char]
  else if Ascii.eqb c "012" then [backslash; "f"%char]
  else if Ascii.eqb c "013" then [backslash; "r"%char]
  else if (code c <? 32)%N then
    backslash :: chars "u00" ++ [hex_digit (code c / 16); hex_digit (code c mod 16)]
  else [c].

Fixpoint escape (s : string) : list ascii :=
  match s with
  | EmptyString => []
  | String c s' => escape_char c ++ escape s'
  end.

Definition print_string (s : string) : list ascii :=
  dquote :: escape s ++ [dquote].

Definition hex_value (c : ascii) : option N :=
  let n := code c in
  if (48 <=? n)%N && (n <=? 57)%N then Some (n - 48)%N
  else if (97 <=? n)%N && (n <=? 102)%N then Some (n - 87)%N
  else if (65 <=? n)%N && (n <=? 70)%N then Some (n - 55)%N
  else None.

Definition hex4 (a b c d : ascii) : option N :=
  match hex_value a, hex_value b, hex_value c, hex_value d with
  | Some x, Some y, Some z, Some w => Some (((x * 16 + y) * 16 + z) * 16 + w)%N
  | _, _, _, _ => None
  end.

Definition unescape (e : ascii) : option ascii :=
  if Ascii.eqb e dquote then Some dquote
  else if Ascii.eqb e backslash then Some backslash
  else if Ascii.eqb e "/" then Some "/"%char
  else if Ascii.eqb e "b" then Some "008"%char
  else if Ascii.eqb e "t" then Some "009"%char
  else if Ascii.eqb e "n" then Some "010"%char
  else if Ascii.eqb e "f" then Some "012"%char
  else if Ascii.eqb e "r" then Some "013"%char
  else None.

Definition push (c : ascii) (r : result (bool * string * list ascii))
  : result (bool * string * list ascii) :=
  let* (ok, s, rest) := r in Ok (ok, String c s, rest).

(** A character that the model does not hold: the rest is read, and the
    string is marked. *)
Definition outside (r : result (bool * string * list ascii))
  : result (bool * string * list ascii) :=
  let* (ok, s, rest) := r in Ok (false, s, rest).

(** The characters of a string literal after its opening quote. *)
Fixpoint parse_chars (s : list ascii) : result (bool * string * list ascii) :=
  match s with
  | [] => Throw SyntaxError
  | c :: r =>
      if Ascii.eqb c dquote then Ok (true, EmptyString, r)
      else if Ascii.eqb c backslash then
        match r with
        | [] => Throw SyntaxError
        | e :: r1 =>
            if Ascii.eqb e "u" then
              match r1 with
              | h1 :: h2 :: h3 :: h4 :: r2 =>
                  match hex4 h1 h2 h3 h4 with
                  | None => Throw SyntaxError
                  | Some n =>
                      if (n <? 256)%N then push (ascii_of_N n) (parse_chars r2)
                      else outside (parse_chars r2)
                  end
              | _ => Throw SyntaxError
              end
            else
              match unescape e with
              | Some c' => push c' (parse_chars r1)
              | None => Throw SyntaxError
              end
        end
      else if (code c <? 32)%N then Throw SyntaxError
      else push c (parse_chars r)
  end.

(** *** Values *)

Fixpoint print (v : json) : list ascii :=
  match v with
  | JNull => chars "null"
  | JBool true => chars "true"
  | JBool false => chars "false"
  | JNum n => print_Z (JSNumber.value n)
  | JStr s => print_string s
  | JArr l =>
      "["%char ::
      (fix elements (l : list json) : list ascii :=
         match l with
         | [] => []
         | [v] => print v
         | v :: l' => print v ++ ","%char :: elements l'
         end) l ++ ["]"%char]
  | JObj m =>
      "{"%char ::
      (fix members (m : list (string * json)) : list ascii :=
         match m with
         | [] => []
         | [(k, v)] => print_string k ++ ":"%char :: print v
         | (k, v) :: m' =>
             print_string k ++ ":"%char :: print v ++ ","%char :: members m'
         end) m ++ ["}"%char]
  end.

Fixpoint strip_prefix (p s : list ascii) : option (list ascii) :=
  match p, s with
  | [], _ => Some s
  | a :: p', b :: s' => if Ascii.eqb a b then strip_prefix p' s' else None
  | _ :: _, [] => None
  end.

Definition parse_literal (s : list ascii) : result (bool * json * list ascii) :=
  match strip_prefix (chars "null") s with
  | Some r => Ok (true, JNull, r)
  | None =>
      match strip_prefix (chars "true") s with
      | Some r => Ok (true, JBool true, r)
      | None =>
          match strip_prefix (chars "false") s with
          | Some r => Ok (true, JBool false, r)
          | None => Throw SyntaxError
          end
      end
  end.

(** The parser of values, of the elements of an array after its bracket
    and of the members of an object after its brace.  The flag of a result
    tells whether the value read is in the model.  [OutOfModel] is the
    answer of a parser without fuel only. *)
Fixpoint parse_value (fuel : nat) (s : list ascii) {struct fuel}
  : result (bool * json * list ascii) :=
  match fuel with
  | O => OutOfModel
  | S f =>
      match skip_ws s with
      | [] => Throw SyntaxError
      | c :: r =>
          if Ascii.eqb c "[" then
            match skip_ws r with
            | c' :: r' =>
                if Ascii.eqb c' "]" then Ok (true, JArr [], r')
                else let* (ok, l, r'') := parse_elements f r in Ok (ok, JArr l, r'')
            | [] => Throw SyntaxError
            end
          else if Ascii.eqb c "{" then
            match skip_ws r with
            | c' :: r' =>
                if Ascii.eqb c' "}" then Ok (true, JObj [], r')
                else let* (ok, m, r'') := parse_members f r in Ok (ok, JObj m, r'')
            | [] => Throw SyntaxError
            end
          else if Ascii.eqb c dquote then
            let* (ok, str, r') := parse_chars r in Ok (ok, JStr str, r')
          else if Ascii.eqb c "-" then parse_number true r
          else if is_digit c then parse_number false (c :: r)
          else parse_literal (c :: r)
      end
  end
with parse_elements (fuel : nat) (s : list ascii) {struct fuel}
  : result (bool * list json * list ascii) :=
  match fuel with
  | O => OutOfModel
  | S f =>
      let* (ok, v, r) := parse_value f s in
      match skip_ws r with
      | c :: r' =>
          if Ascii.eqb c "," then
            let* (ok', l, r'') := parse_elements f r' in Ok (ok && ok', v :: l, r'')
          else if Ascii.eqb c "]" then Ok (ok, [v], r')
          else Throw SyntaxError
      | [] => Throw SyntaxError
      end
  end
with parse_members (fuel : nat) (s : list ascii) {struct fuel}
  : result (bool * list (string * json) * list ascii) :=
  match fuel with
  | O => OutOfModel
  | S f =>
      match skip_ws s with
      | c :: r =>
          if Ascii.eqb c dquote then
            let* (okk, k, r1) := parse_chars r in
            match skip_ws r1 with
            | c1 :: r2 =>
                if Ascii.eqb c1 ":" then
                  let* (okv, v, r3) := parse_value f r2 in
                  match skip_ws r3 with
                  | c3 :: r4 =>
                      if Ascii.eqb c3 "," then
                        let* (okm, m, r5) := parse_members f r4 in
                        Ok (okk && okv && okm, (k, v) :: m, r5)
                      else if Ascii.eqb c3 "}" then Ok (okk && okv, [(k, v)], r4)
                      else Throw SyntaxError
                  | [] => Throw SyntaxError
                  end
                else Throw SyntaxError
            | [] => Throw SyntaxError
            end
          else Throw SyntaxError
      | [] => Throw SyntaxError
      end
  end.

Definition print_elements : list json -> list ascii :=
  fix elements (l : list json) : list ascii :=
    match l with
    | [] => []
    | [v] => print v
    | v :: l' => print v ++ ","%char :: elements l'
    end.

Definition print_members : list (string * json) -> list ascii :=
  fix members (m : list (string * json)) : list ascii :=
    match m with
    | [] => []
    | [(k, v)] => print_string k ++ ":"%char :: print v
    | (k, v) :: m' =>
        print_string k ++ ":"%char :: print v ++ ","%char :: members m'
    end.

(** Fuel that [parse_value] needs to read a value back. *)
Fixpoint jsize (v : json) : nat :=
  match v with
  | JArr l => S (list_sum (List.map (fun x => S (jsize x)) l))
  | JObj m => S (list_sum (List.map (fun kv => S (jsize (snd kv))) m))
  | _ => 1%nat
  end.

(** What may follow a value inside a text: nothing, or a separator. *)
Definition closed (rest : list ascii) : bool :=
  match rest with
  | [] => true
  | c :: _ => Ascii.eqb c "," || Ascii.eqb c "]" || Ascii.eqb c "}"
  end.

(** [JSON.stringify] of a value without [undefined] parts. *)
Definition stringify (v : json) : string := text (print v).

(** The fuel that is enough for a text: two for a character. *)
Definition fuel_for (s : list ascii) : nat := (2 * length s + 2)%nat.

(** [JSON.parse]: one value between optional white space. *)
Definition parse (s : string) : result json :=
  let* (ok, v, r) := parse_value (fuel_for (chars s)) (chars s) in
  match skip_ws r with
  | [] => if ok then Ok v else OutOfModel
  | _ :: _ => Throw SyntaxError
  end.

(** *** Induction over nested values *)

Section json_induction.
Variable P : json -> Prop.
Hypothesis Hnull : P JNull.
Hypothesis Hbool : forall b, P (JBool b).
Hypothesis Hnum : forall n, P (JNum n).
Hypothesis Hstr : forall s, P (JStr s).
Hypothesis Harr : forall l, Forall P l -> P (JArr l).
Hypothesis Hobj : forall m, Forall (fun kv => P (snd kv)) m -> P (JObj m).

Fixpoint json_nested_ind (v : json) : P v :=
  match v with
  | JNull => Hnull
  | JBool b => Hbool b
  | JNum n => Hnum n
  | JStr s => Hstr s
  | JArr l =>
      Harr l ((fix all (l : list json) : Forall P l :=
                 match l with
                 | [] => @List.Forall_nil _ P
                 | x :: l' => @List.Forall_cons _ P x l' (json_nested_ind x) (all l')
                 end) l)
  | JObj m =>
      Hobj m ((fix all (m : list (string * json))
                 : Forall (fun kv => P (snd kv)) m :=
                 match m with
                 | [] => @List.Forall_nil _ _
                 | kv :: m' =>
                     @List.Forall_cons _ (fun kv => P (snd kv)) kv m'
                       (json_nested_ind (snd kv)) (all m')
                 end) m)
  end.
End json_induction.

(** [N.to_uint] gives a numeral without leading zero. *)
Definition plain (d : uint) : Prop :=
  match d with
  | Nil => False
  | D0 Nil => True
  | D0 _ => False
  | _ => True
  end.

(** Every printed value starts with a character that is neither white space
    nor a closing bracket. *)
Definition starts_value (s : list ascii) : bool :=
  match s with
  | c :: _ => negb (is_ws c) && negb (Ascii.eqb c "]") && negb (Ascii.eqb c "}")
  | [] => false
  end.

(** What the induction carries for one value. *)
Definition reads_back (v : json) : Prop :=
  forall fuel rest,
    (jsize v <= fuel)%nat -> closed rest = true ->
    parse_value fuel (print v ++ rest) = Ok (true, v, rest).

End JSON.

Import JSON.

(** ** Strings of the components: [trim], [toLowerCase], [includes] *)

Module JSString.

(** White space and line terminators stripped by [String.prototype.trim],
    among the code units below 256. *)
Definition is_space (c : ascii) : bool :=
  let n := code c in
  ((9 <=? n) && (n <=? 13) || (n =? 32) || (n =? 160))%N.

Fixpoint trimStart (s : string) : string :=
  match s with
  | EmptyString => EmptyString
  | String c s' => if is_space c then trimStart s' else s
  end.

(** Drops trailing white space: a character stays when something other than
    white space follows it or it is not white space itself. *)
Fixpoint trimEnd (s : string) : string :=
  match s with
  | EmptyString => EmptyString
  | String c s' =>
      match trimEnd s' with
      | EmptyString => if is_space c then EmptyString else String c EmptyString
      | t => String c t
      end
  end.

Definition trim (s : string) : string := trimEnd (trimStart s).

Definition lower_char (c : ascii) : ascii :=
  let n := code c in
  if ((65 <=? n) && (n <=? 90)
      || (192 <=? n) && (n <=? 222) && negb (n =? 215))%N
  then ascii_of_N (n + 32)
  else c.

Fixpoint toLowerCase (s : string) : string :=
  match s with
  | EmptyString => EmptyString
  | String c s' => String (lower_char c) (toLowerCase s')
  end.

Fixpoint startsWith (s t : string) {struct t} : bool :=
  match t, s with
  | EmptyString, _ => true
  | String b t', String a s' => Ascii.eqb a b && startsWith s' t'
  | String _ _, EmptyString => false
  end.

(** [s.includes(t)]: [t] occurs in [s] at some position. *)
Fixpoint includes (s t : string) : bool :=
  startsWith s t ||
  match s with
  | EmptyString => false
  | String _ s' => includes s' t
  end.

(** The words of the specification. *)
Definition whitespace_only (s : string) : Prop :=
  Forall (fun c => is_space c = true) (list_ascii_of_string s).

Definition contains (s t : string) : Prop :=
  exists pre post : string, s = (pre ++ t ++ post)%string.

End JSString.

(** ** Data model

    The three record shapes held in local storage.  [AllOrders] declares
    the items of an order as [any[]]; the profile page gives their shape,
    [OrderItem], which has the fields of [CartItem]. *)

Module CartItem.
Record t : Type := mk {
  id : string;
  name : string;
  price : JSNumber.t;
  quantity : JSNumber.t;
  image : string
}.
End CartItem.

Module Order.
Record t : Type := mk {
  id : string;
  items : list CartItem.t;
  total : JSNumber.t;
  date : string;
  status : string
}.
End Order.

Module CustomRequest.
Record t : Type := mk {
  id : string;
  userId : string;
  userEmail : string;
  userName : string;
  title : string;
  description : string;
  quantity : JSNumber.t;
  budget : JSNumber.t;
  phone : string;
  image : option string;
  status : string;
  date : string
}.
End CustomRequest.

(** ** Records as JSON objects

    An object is written with its fields in the order of the interface; a
    stored value is taken at a record type only when it has exactly this
    form, anything else leaves the model. *)

Module Codec.

Definition field_str (k : string) (kv : string * json) : option string :=
  match kv with
  | (k', JStr s) => if String.eqb k k' then Some s else None
  | _ => None
  end.

Definition field_num (k : string) (kv : string * json) : option JSNumber.t :=
  match kv with
  | (k', JNum n) => if String.eqb k k' then Some n else None
  | _ => None
  end.

Definition field_str_or_null (k : string) (kv : string * json)
  : option (option string) :=
  match kv with
  | (k', JStr s) => if String.eqb k k' then Some (Some s) else None
  | (k', JNull) => if String.eqb k k' then Some None else None
  | _ => None
  end.

Definition field_any (k : string) (kv : string * json) : option json :=
  if String.eqb k (fst kv) then Some (snd kv) else None.

Fixpoint decode_all {A : Type} (dec : json -> option A) (l : list json)
  : option (list A) :=
  match l with
  | [] => Some []
  | j :: l' =>
      match dec j, decode_all dec l' with
      | Some a, Some r => Some (a :: r)
      | _, _ => None
      end
  end.

Definition encode_array {A : Type} (enc : A -> json) (l : list A) : json :=
  JArr (List.map enc l).

Definition decode_array {A : Type} (dec : json -> option A) (j : json)
  : option (list A) :=
  match j with
  | JArr l => decode_all dec l
  | _ => None
  end.

Definition encode_CartItem (i : CartItem.t) : json :=
  JObj [("id", JStr (CartItem.id i)); ("name", JStr (CartItem.name i));
        ("price", JNum (CartItem.price i));
        ("quantity", JNum (CartItem.quantity i));
        ("image", JStr (CartItem.image i))]%string.

Definition decode_CartItem (j : json) : option CartItem.t :=
  match j with
  | JObj [f1; f2; f3; f4; f5] =>
      match field_str "id" f1, field_str "name" f2, field_num "price" f3,
            field_num "quantity" f4, field_str "image" f5 with
      | Some a, Some b, Some c, Some d, Some e => Some (CartItem.mk a b c d e)
      | _, _, _, _, _ => None
      end
  | _ => None
  end.

Definition encode_Order (o : Order.t) : json :=
  JObj [("id", JStr (Order.id o));
        ("items", encode_array encode_CartItem (Order.items o));
        ("total", JNum (Order.total o)); ("date", JStr (Order.date o));
        ("status", JStr (Order.status o))]%string.

Definition decode_Order (j : json) : option Order.t :=
  match j with
  | JObj [f1; f2; f3; f4; f5] =>
      match field_str "id" f1, field_any "items" f2, field_num "total" f3,
            field_str "date" f4, field_str "status" f5 with
      | Some a, Some b, Some c, Some d, Some e =>
          match decode_array decode_CartItem b with
          | Some its => Some (Order.mk a its c d e)
          | None => None
          end
      | _, _, _, _, _ => None
      end
  | _ => None
  end.

Definition encode_image (o : option string) : json :=
  match o with
  | Some s => JStr s
  | None => JNull
  end.

Definition encode_CustomRequest (r : CustomRequest.t) : json :=
  JObj [("id", JStr (CustomRequest.id r));
        ("userId", JStr (CustomRequest.userId r));
        ("userEmail", JStr (CustomRequest.userEmail r));
        ("userName", JStr (CustomRequest.userName r));
        ("title", JStr (CustomRequest.title r));
        ("description", JStr (CustomRequest.description r));
        ("quantity", JNum (CustomRequest.quantity r));
        ("budget", JNum (CustomRequest.budget r));
        ("phone", JStr (CustomRequest.phone r));
        ("image", encode_image (CustomRequest.image r));
        ("status", JStr (CustomRequest.status r));
        ("date", JStr (CustomRequest.date r))]%string.

Definition decode_CustomRequest (j : json) : option CustomRequest.t :=
  match j with
  | JObj [f1; f2; f3; f4; f5; f6; f7; f8; f9; f10; f11; f12] =>
      match field_str "id" f1, field_str "userId" f2, field_str "userEmail" f3,
            field_str "userName" f4, field_str "title" f5,
            field_str "description" f6 with
      | Some a1, Some a2, Some a3, Some a4, Some a5, Some a6 =>
          match field_num "quantity" f7, field_num "budget" f8,
                field_str "phone" f9, field_str_or_null "image" f10,
                field_str "status" f11, field_str "date" f12 with
          | Some a7, Some a8, Some a9, Some a10, Some a11, Some a12 =>
              Some (CustomRequest.mk a1 a2 a3 a4 a5 a6 a7 a8 a9 a10 a11 a12)
          | _, _, _, _, _, _ => None
          end
      | _, _, _, _, _, _ => None
      end
  | _ => None
  end.

(** [JSON.stringify] of a typed array, and [JSON.parse] of a stored text
    taken at the array type the component declares. *)
Definition stringify_array {A : Type} (enc : A -> json) (l : list A) : string :=
  stringify (encode_array enc l).

Definition parse_array {A : Type} (dec : json -> option A) (s : string)
  : result (list A) :=
  let* j := parse s in of_option (decode_array dec j).

End Codec.

(** ** The browser: local storage, with the accesses made to it *)

Module Browser.

Inductive access : Type :=
| GetItem (key : string) (value : option string)
| SetItem (key : string) (value : string).

Record t : Type := mk {
  localStorage : gmap string string;
  trace : list access
}.

(** A computation reads and writes the browser and returns, throws or
    leaves the model; what it did before throwing stays done. *)
Definition M (A : Type) : Type := t -> result A * t.

Definition ret {A : Type} (a : A) : M A := fun b => (Ok a, b).

Definition bind {A B : Type} (m : M A) (k : A -> M B) : M B :=
  fun b =>
    match m b with
    | (Ok a, b') => k a b'
    | (Throw e, b') => (Throw e, b')
    | (OutOfModel, b') => (OutOfModel, b')
    end.

Definition lift {A : Type} (r : result A) : M A := fun b => (r, b).

Definition getItem (key : string) : M (option string) :=
  fun b =>
    let v := localStorage b !! key in
    (Ok v, mk (localStorage b) (trace b ++ [GetItem key v])).

Definition setItem (key value : string) : M unit :=
  fun b =>
    (Ok tt, mk (<[key := value]> (localStorage b)) (trace b ++ [SetItem key value])).

(** A string or [null] used as a condition: [null] and the empty string
    count as false; a true one is a non-empty string. *)
Definition truthy (v : option string) : option string :=
  match v with
  | Some s => if String.eqb s "" then None else Some s
  | None => None
  end.

(** [v || d] *)
Definition or_else (v : option string) (d : string) : string :=
  match truthy v with
  | Some s => s
  | None => d
  end.

End Browser.

Import Browser.

Notation "'let!' p ':=' m 'in' k" := (Browser.bind m (fun p => k))
  (at level 10, p pattern, m at level 100, k at level 200).

(** ** AllOrders (src/pages/AllOrders.tsx) *)

Module AllOrders.

Record state : Type := mk {
  orders : list Order.t;
  filteredOrders : list Order.t;
  searchTerm : string
}.

(** The three [useState] initial values. *)
Definition initial : state := mk [] [] "".

(** The effect that loads the orders from local storage. *)
Definition loadOrders (st : state) : M state :=
  let! savedOrders := getItem "orders" in
  match truthy savedOrders with
  | Some text =>
      let! parsedOrders := lift (Codec.parse_array Codec.decode_Order text) in
      ret (mk parsedOrders parsedOrders (searchTerm st))
  | None => ret st
  end.

Definition handleSearch (term : string) (st : state) : state :=
  if String.eqb (JSString.trim term) "" then
    mk (orders st) (orders st) term
  else
    let filtered :=
      List.filter
        (fun order =>
           JSString.includes (JSString.toLowerCase (Order.id order))
                             (JSString.toLowerCase term))
        (orders st) in
    mk (orders st) filtered term.

(** [{ ...order, status: newStatus }] *)
Definition with_status (order : Order.t) (newStatus : string) : Order.t :=
  Order.mk (Order.id order) (Order.items order) (Order.total order)
           (Order.date order) newStatus.

Definition set_status (orderId newStatus : string) (order : Order.t) : Order.t :=
  if String.eqb (Order.id order) orderId then with_status order newStatus
  else order.

Definition updateOrderStatus (orderId newStatus : string) (st : state) : M state :=
  let updatedOrders := List.map (set_status orderId newStatus) (orders st) in
  let updatedFiltered := List.map (set_status orderId newStatus) (filteredOrders st) in
  let! _ := setItem "orders" (Codec.stringify_array Codec.encode_Order updatedOrders) in
  ret (mk updatedOrders updatedFiltered (searchTerm st)).

(** The "Clear search" button. *)
Definition clearSearch (st : state) : state :=
  mk (orders st) (orders st) "".

End AllOrders.

(** ** UserProfile (the customer profile page) *)

Module User.
(** The fields of the logged-in user that the page reads. *)
Record t : Type := mk {
  id : string;
  name : string;
  email : string;
  role : string
}.
End User.

Module UserProfile.

Record state : Type := mk {
  orders : list Order.t;
  customRequests : list CustomRequest.t
}.

Definition initial : state := mk [] [].

(** The effect that loads the orders and the custom requests. *)
Definition loadProfile (isAuthenticated : bool) (user : option User.t)
    (st : state) : M state :=
  match isAuthenticated, user with
  | true, Some u =>
      let! savedOrders := getItem "orders" in
      let! allOrders :=
        lift (Codec.parse_array Codec.decode_Order (or_else savedOrders "[]")) in
      let! savedRequests := getItem "customRequests" in
      let! allRequests :=
        lift (Codec.parse_array Codec.decode_CustomRequest
                (or_else savedRequests "[]")) in
      let userRequests :=
        List.filter
          (fun request => String.eqb (CustomRequest.userId request) (User.id u))
          allRequests in
      ret (mk allOrders userRequests)
  | _, _ => ret st
  end.

End UserProfile.

(** ** Navbar (src/components/Navbar.tsx) with its CartModal *)

Module Navbar.

(** The argument of [window.addToCart]; [quantity] is optional. *)
Module NewItem.
Record t : Type := mk {
  id : string;
  name : string;
  price : JSNumber.t;
  quantity : option JSNumber.t;
  image : string
}.
End NewItem.

Record state : Type := mk {
  isCartOpen : bool;
  cartItems : list CartItem.t
}.

(** The function the mount effect stores in [window.addToCart]. *)
Inductive global_function : Type := addToCart_of_Navbar.

Record world : Type := mkWorld {
  browser : Browser.t;
  window_addToCart : option global_function;
  storage_listener : bool;
  component : option state
}.

Inductive event : Type :=
| Mount
| Unmount
| StorageEvent
| CallAddToCart (item : NewItem.t)
| ClickRemove (id : string)
| SetCartOpen (open : bool)
| OtherWrite (key : string) (value : option string).

(** The updater that [removeFromCart] passes to [setCartItems]. *)
Definition removeFromCart (id : string) (prevItems : list CartItem.t)
  : M (list CartItem.t) :=
  let updatedItems :=
    List.filter (fun item => negb (String.eqb (CartItem.id item) id)) prevItems in
  let! _ := setItem "cartItems"
              (Codec.stringify_array Codec.encode_CartItem updatedItems) in
  ret updatedItems.

(** [cartItems.reduce((sum, item) => sum + item.quantity, 0)] *)
Definition cartItemsCount (cartItems : list CartItem.t) : Z :=
  fold_left (fun sum item => JSNumber.add sum (JSNumber.value (CartItem.quantity item)))
            cartItems 0.

(** [CartModal]'s subtotal. *)
Definition subtotal (cartItems : list CartItem.t) : Z :=
  fold_left
    (fun sum item =>
       JSNumber.add sum
         (JSNumber.mul (JSNumber.value (CartItem.price item))
                       (JSNumber.value (CartItem.quantity item))))
    cartItems 0.

Definition initial_world (storage : gmap string string) : world :=
  mkWorld (Browser.mk storage []) None false None.

Section Component.

(** The two helpers imported from ./navbar/cartUtils. *)
Variable addItemToCart : NewItem.t -> list CartItem.t -> list CartItem.t.
Variable loadCartFromStorage : M (list CartItem.t).

(** Runs a computation in the browser of a world. *)
Definition within {A : Type} (w : world) (m : M A)
    (k : A -> Browser.t -> world) : result world :=
  match m (browser w) with
  | (Ok a, b) => Ok (k a b)
  | (Throw e, _) => Throw e
  | (OutOfModel, _) => OutOfModel
  end.

Definition setCartItems (w : world) (b : Browser.t)
    (f : list CartItem.t -> list CartItem.t) : world :=
  match component w with
  | Some st =>
      mkWorld b (window_addToCart w) (storage_listener w)
              (Some (mk (isCartOpen st) (f (cartItems st))))
  | None => mkWorld b (window_addToCart w) (storage_listener w) None
  end.

(** One event of the page; a single Navbar is on the page. *)
Definition step (e : event) (w : world) : result world :=
  match e with
  | Mount =>
      match component w with
      | Some _ => OutOfModel
      | None =>
          within w loadCartFromStorage (fun items b =>
            mkWorld b (Some addToCart_of_Navbar) true (Some (mk false items)))
      end
  | Unmount =>
      match component w with
      | Some _ => Ok (mkWorld (browser w) None false None)
      | None => OutOfModel
      end
  | StorageEvent =>
      if storage_listener w then
        within w loadCartFromStorage (fun items b =>
          setCartItems w b (fun _ => items))
      else Ok w
  | CallAddToCart item =>
      match window_addToCart w with
      | Some addToCart_of_Navbar =>
          Ok (setCartItems w (browser w) (fun prevItems => addItemToCart item prevItems))
      | None => Throw TypeError
      end
  | ClickRemove id =>
      match component w with
      | Some st =>
          within w (removeFromCart id (cartItems st)) (fun items b =>
            setCartItems w b (fun _ => items))
      | None => OutOfModel
      end
  | SetCartOpen open =>
      match component w with
      | Some st =>
          Ok (mkWorld (browser w) (window_addToCart w) (storage_listener w)
                      (Some (mk open (cartItems st))))
      | None => OutOfModel
      end
  | OtherWrite key value =>
      Ok (mkWorld
            (Browser.mk
               (match value with
                | Some v => <[key := v]> (localStorage (browser w))
                | None => delete key (localStorage (browser w))
                end)
               (trace (browser w)))
            (window_addToCart w) (storage_listener w) (component w))
  end.

(** The worlds the page can be in. *)
Inductive reachable : world -> Prop :=
| reachable_initial storage : reachable (initial_world storage)
| reachable_step e w w' : reachable w -> step e w = Ok w' -> reachable w'.

End Component.

End Navbar.

(** ** cartUtils *)

Module CartUtils.

(** Modelled from the spec: [loadCartFromStorage], exported by
    ./navbar/cartUtils, which is not among the sources.  The cart is the
    JSON array of [CartItem] kept under the key [cartItems]; missing data
    defaults to the empty collection; a failure of [JSON.parse] is not
    guarded. *)
Definition loadCartFromStorage : M (list CartItem.t) :=
  let! saved := getItem "cartItems" in
  match saved with
  | Some s => lift (Codec.parse_array Codec.decode_CartItem s)
  | None => ret []
  end.

End CartUtils.

(** ** What the pages render, and their events

    The conditions under which the parts of a page are rendered, with the
    data each part is given; amounts are the numbers before [toFixed]. *)

Module CartModal.

(** One entry of the list, with the amount [item.price * item.quantity]
    shown on its line. *)
Definition lineAmount (item : CartItem.t) : Z :=
  JSNumber.mul (JSNumber.value (CartItem.price item))
               (JSNumber.value (CartItem.quantity item)).

Inductive items_area : Type :=
| EmptyMessage
| ItemList (lines : list (CartItem.t * Z)).

(** The panel of the open drawer: the items area, and the footer with the
    subtotal and the checkout button when it is rendered. *)
Record panel : Type := mkPanel {
  area : items_area;
  footer : option Z
}.

Definition render (isOpen : bool) (cartItems : list CartItem.t) : option panel :=
  let subtotal := Navbar.subtotal cartItems in
  if isOpen then
    Some (mkPanel
            (if (length cartItems =? 0)%nat then EmptyMessage
             else ItemList (List.map (fun item => (item, lineAmount item)) cartItems))
            (if (0 <? length cartItems)%nat then Some subtotal else None))
  else None.

End CartModal.

Module AllOrdersPage.

(** The values of the status [select] of a row. *)
Definition statusOptions : list string :=
  ["Processing"; "Shipped"; "Delivered"; "Cancelled"]%string.

(** What the administrator can do on the page. *)
Inductive event : Type :=
| Search (term : string)
| ChangeStatus (orderId newStatus : string)
| ClearSearch.

Definition handle (e : event) (st : AllOrders.state) : M AllOrders.state :=
  match e with
  | Search term => ret (AllOrders.handleSearch term st)
  | ChangeStatus orderId newStatus => AllOrders.updateOrderStatus orderId newStatus st
  | ClearSearch => ret (AllOrders.clearSearch st)
  end.

Fixpoint run (events : list event) (st : AllOrders.state) : M AllOrders.state :=
  match events with
  | [] => ret st
  | e :: events' => let! st' := handle e st in run events' st'
  end.

(** The page from its mount: the load effect, then the events. *)
Definition open_page (events : list event) : M AllOrders.state :=
  let! st := AllOrders.loadOrders AllOrders.initial in
  run events st.

(** The table of the displayed orders, or the notice [No orders found]
    with the [Clear search] button when the search term is not empty. *)
Inductive view : Type :=
| Table (rows : list Order.t)
| NoOrdersFound (clearSearchButton : bool).

Definition render (st : AllOrders.state) : view :=
  if (0 <? length (AllOrders.filteredOrders st))%nat then
    Table (AllOrders.filteredOrders st)
  else NoOrdersFound (negb (String.eqb (AllOrders.searchTerm st) "")).

End AllOrdersPage.

Module UserProfilePage.

Definition getStatusColor (status : string) : string :=
  let s := JSString.toLowerCase status in
  if String.eqb s "processing" then "bg-yellow-100 text-yellow-800"
  else if String.eqb s "shipped" then "bg-blue-100 text-blue-800"
  else if String.eqb s "delivered" then "bg-green-100 text-green-800"
  else if String.eqb s "cancelled" then "bg-red-100 text-red-800"
  else if String.eqb s "approved" then "bg-green-100 text-green-800"
  else if String.eqb s "rejected" then "bg-red-100 text-red-800"
  else if String.eqb s "pending" then "bg-yellow-100 text-yellow-800"
  else "bg-gray-100 text-gray-800".

End UserProfilePage.

Module NavbarPage.

(** A sequence of events of the Navbar, stopped by the first that does not
    return. *)
Fixpoint steps
    (addItemToCart : Navbar.NewItem.t -> list CartItem.t -> list CartItem.t)
    (loadCartFromStorage : M (list CartItem.t))
    (events : list Navbar.event) (w : Navbar.world) : result Navbar.world :=
  match events with
  | [] => Ok w
  | e :: events' =>
      let* w' := Navbar.step addItemToCart loadCartFromStorage e w in
      steps addItemToCart loadCartFromStorage events' w'
  end.

(** The drawer as the Navbar renders it. *)
Definition drawer (w : Navbar.world) : option CartModal.panel :=
  match Navbar.component w with
  | Some st => CartModal.render (Navbar.isCartOpen st) (Navbar.cartItems st)
  | None => None
  end.

End NavbarPage.

(** ** Vocabulary of the statements *)

(** The sum of the quantities, in the words of the specification. *)
Definition quantity_of (item : CartItem.t) : Z :=
  JSNumber.value (CartItem.quantity item).

Definition sum_of_quantities (cart : list CartItem.t) : Z :=
  foldr Z.add 0 (quantity_of <$> cart).

(** The product of the price and the quantity of an entry, as an integer. *)
Definition amount_of (item : CartItem.t) : Z :=
  JSNumber.value (CartItem.price item) * JSNumber.value (CartItem.quantity item).

(** The sum of the magnitudes of a quantity over a list.  While it is a
    safe integer, no addition of the quantities along the list rounds. *)
Definition magnitude {A : Type} (q : A -> Z) (l : list A) : Z :=
  foldr Z.add 0 ((fun x => Z.abs (q x)) <$> l).

(** The carts on which the badge count is computed without rounding, and
    those on which the subtotal is. *)
Definition counts_exactly (cart : list CartItem.t) : Prop :=
  magnitude quantity_of cart <= JSNumber.max_safe.

Definition adds_up_exactly (cart : list CartItem.t) : Prop :=
  magnitude amount_of cart <= JSNumber.max_safe.

(** The outcome of a load, with a function applied to what it returns. *)
Definition rmap {A B : Type} (f : A -> B) (r : result A) : result B :=
  let* a := r in Ok (f a).

(** The reading of C1 for the order history: the orders have owners, and
    the page of a user shows only orders owned by this user. *)
Definition shows_only_own_orders (owner : Order.t -> string) : Prop :=
  forall (u : User.t) (storage : gmap string string) (st' : UserProfile.state),
    fst (UserProfile.loadProfile true (Some u) UserProfile.initial (Browser.mk storage [])) =
      Ok st' ->
    forall order, order ∈ UserProfile.orders st' -> owner order = User.id u.

(** Sample data for the examples. *)
Module Sample.
Definition towel : CartItem.t := CartItem.mk "t1" "Bath towel" (JSNumber.num 250) (JSNumber.num 2) "bath.png".
Definition order : Order.t :=
  Order.mk "ORD-1001" [towel] (JSNumber.num 500) "2024-03-01" "Processing".
Definition asha : User.t := User.mk "u1" "Asha" "asha@example.com" "customer".
Definition ravi : User.t := User.mk "u2" "Ravi" "ravi@example.com" "customer".
Definition request_of_asha : CustomRequest.t :=
  CustomRequest.mk "REQ-1" "u1" "asha@example.com" "Asha" "Monogram"
                   "Initials on the hem" (JSNumber.num 12) (JSNumber.num 300) "5550100" None "pending" "2024-03-02".
Definition request_of_ravi : CustomRequest.t :=
  CustomRequest.mk "REQ-2" "u2" "ravi@example.com" "Ravi" "Logo" "Hotel logo"
                   (JSNumber.num 40) (JSNumber.num 250) "5550101" (Some "logo.png") "approved" "2024-03-03".
Definition orders_only : gmap string string :=
  {[ "orders" := Codec.stringify_array Codec.encode_Order [order] ]}.
Definition orders_and_requests : gmap string string :=
  <["customRequests" :=
      Codec.stringify_array Codec.encode_CustomRequest [request_of_asha; request_of_ravi]]>
    orders_only.

(** A stand-in for [addItemToCart] of ./navbar/cartUtils, to run the
    Navbar on an example; the Navbar is stated for every such function. *)
Definition append_item (item : Navbar.NewItem.t) (prevItems : list CartItem.t)
  : list CartItem.t :=
  prevItems ++
  [CartItem.mk (Navbar.NewItem.id item) (Navbar.NewItem.name item)
     (Navbar.NewItem.price item) (default (JSNumber.num 1) (Navbar.NewItem.quantity item))
     (Navbar.NewItem.image item)].

Definition hand_towel : CartItem.t := CartItem.mk "t2" "Hand towel" (JSNumber.num 90) (JSNumber.num 3) "hand.png".

Definition run (events : list Navbar.event) (w : Navbar.world) : Navbar.world :=
  fold_left
    (fun w e =>
       match Navbar.step append_item CartUtils.loadCartFromStorage e w with
       | Ok w' => w'
       | _ => w
       end)
    events w.

(** The Navbar mounted on an empty storage. *)
Definition mounted : Navbar.world :=
  run [Navbar.Mount] (Navbar.initial_world ∅).

(** The Navbar mounted, and a cart written by another page since. *)
Definition mounted_stale : Navbar.world :=
  run [Navbar.Mount;
       Navbar.OtherWrite "cartItems"
         (Some (Codec.stringify_array Codec.encode_CartItem [towel; hand_towel]))]
      (Navbar.initial_world ∅).

(** The Navbar with two entries in the cart and the drawer open. *)
Definition shopping : Navbar.world :=
  Navbar.mkWorld (Browser.mk ∅ []) (Some Navbar.addToCart_of_Navbar) true
    (Some (Navbar.mk true [towel; hand_towel])).
End Sample.

(** What goes through local storage. *)

Module Storage.







Definition key_of (a : access) : string :=
  match a with
  | GetItem key _ => key
  | SetItem key _ => key
  end.

Definition storage_key (key : string) : Prop :=
  key = "cartItems"%string \/ key = "orders"%string \/ key = "customRequests"%string.

Definition serialized_array {A : Type} (enc : A -> json) (value : string) : Prop :=
  exists l : list A, value = Codec.stringify_array enc l.

(** A value of the shape its key asks for. *)
Definition well_shaped (key value : string) : Prop :=
  (key = "cartItems"%string /\ serialized_array Codec.encode_CartItem value) \/
  (key = "orders"%string /\ serialized_array Codec.encode_Order value) \/
  (key = "customRequests"%string /\ serialized_array Codec.encode_CustomRequest value).

(** C5 for one access: one of the three keys, and a value, when there is
    one, of the shape of the key. *)
Definition access_ok (a : access) : Prop :=
  match a with
  | GetItem key (Some value) => well_shaped key value
  | GetItem key None => storage_key key
  | SetItem key value => well_shaped key value
  end.

(** A storage whose values under the three keys have their shapes. *)
Definition well_formed (storage : gmap string string) : Prop :=
  forall key value,
    storage !! key = Some value -> storage_key key -> well_shaped key value.

(** Browsers in which every access so far used one of the three keys, and
    browsers in which, moreover, the storage is well formed and every value
    read or written so far had the shape of its key. *)
Definition keys_used (b : Browser.t) : Prop :=
  Forall (fun a => storage_key (key_of a)) (trace b).

Definition shapes_kept (b : Browser.t) : Prop :=
  well_formed (localStorage b) /\ Forall access_ok (trace b).

(** A computation that goes from such browsers to such browsers. *)
Definition keeps {A : Type} (m : M A) : Prop :=
  forall b,
    (keys_used b -> keys_used (snd (m b))) /\
    (shapes_kept b -> shapes_kept (snd (m b))).

End Storage.

Import Storage.

(** The cart stored under [cartItems]: the list whose serialization the
    key holds, the empty list when the key holds nothing. *)
Definition holds_cart (storage : gmap string string) (cart : list CartItem.t) : Prop :=
  match storage !! "cartItems" with
  | Some text => text = Codec.stringify_array Codec.encode_CartItem cart
  | None => cart = []
  end.

(** The global function and the 'storage' listener are there exactly
    while the component is mounted. *)
Definition attached (w : Navbar.world) : Prop :=
  match Navbar.component w with
  | Some _ =>
      Navbar.window_addToCart w = Some Navbar.addToCart_of_Navbar /\
      Navbar.storage_listener w = true
  | None =>
      Navbar.window_addToCart w = None /\ Navbar.storage_listener w = false
  end.

(** Two strings that differ at most in the case of their letters. *)
Definition case_variant (s t : string) : Prop :=
  Forall2 (fun a b => JSString.lower_char a = JSString.lower_char b)
          (list_ascii_of_string s) (list_ascii_of_string t).

(** The displayed orders are what the search for the current term gives
    on the current orders. *)
Definition search_consistent (st : AllOrders.state) : Prop :=
  AllOrders.filteredOrders st =
  AllOrders.filteredOrders (AllOrders.handleSearch (AllOrders.searchTerm st) st).

(** The order list that the key [orders] stands for: the list whose
    serialization it holds, the empty list when it holds nothing. *)
Definition holds_orders (storage : gmap string string) (l : list Order.t) : Prop :=
  or_else (storage !! "orders") "[]" = Codec.stringify_array Codec.encode_Order l.

Definition is_read (a : access) : Prop :=
  match a with
  | GetItem _ _ => True
  | SetItem _ _ => False
  end.

(** * Properties *)

(** ** JSON texts are read back *)

Module JSNumberFacts.
Import JSNumber.

(** A number is its value: the proof that it is safe does not count. *)
Lemma value_inj (a b : t) : value a = value b -> a = b.
Proof.
  destruct a as [x Hx], b as [y Hy]. simpl. intros ->. f_equal.
  apply Eqdep_dec.UIP_dec, Bool.bool_dec.
Qed.

Lemma of_Z_value (n : t) : of_Z (value n) = Some n.
Proof.
  unfold of_Z. destruct (Bool.bool_dec (is_safe (value n)) true) as [H|H].
  - f_equal. now apply value_inj.
  - destruct (H (value_is_safe n)).
Qed.

Lemma of_Z_Some z n : of_Z z = Some n -> value n = z.
Proof.
  unfold of_Z. destruct (Bool.bool_dec (is_safe z) true); [|discriminate].
  intros H. injection H as <-. reflexivity.
Qed.

Lemma is_safe_bounds z : is_safe z = true <-> - max_safe <= z <= max_safe.
Proof. unfold is_safe. rewrite andb_true_iff, !Z.leb_le. tauto. Qed.

Lemma value_bounds (n : t) : - max_safe <= value n <= max_safe.
Proof. apply is_safe_bounds, value_is_safe. Qed.

Lemma num_value z : - max_safe <= z <= max_safe -> value (num z) = z.
Proof.
  intros H. apply is_safe_bounds in H. unfold num, of_Z.
  destruct (Bool.bool_dec (is_safe z) true) as [Hs|Hn]; [reflexivity|].
  destruct (Hn H).
Qed.

(** Below [2 ^ 53] every integer is a double. *)
Lemma round_double_exact z : Z.abs z < 2 ^ 53 -> round_double z = z.
Proof.
  intros H. unfold round_double. now rewrite (proj2 (Z.ltb_lt _ _) H).
Qed.

Lemma add_exact a b : Z.abs (a + b) <= max_safe -> add a b = a + b.
Proof. intros H. apply round_double_exact. unfold max_safe in H. lia. Qed.

Lemma mul_exact a b : Z.abs (a * b) <= max_safe -> mul a b = a * b.
Proof. intros H. apply round_double_exact. unfold max_safe in H. lia. Qed.

(** Rounding does not go below [2 ^ 53] from above it. *)
Lemma round_double_large z : 2 ^ 53 <= z -> 2 ^ 53 <= round_double z.
Proof.
  intros H. unfold round_double.
  assert (Ha : Z.abs z = z) by lia. rewrite Ha.
  destruct (Z.ltb_spec z (2 ^ 53)) as [Hlt|_]; [lia|].
  assert (Hlog : 53 <= Z.log2 z) by (apply Z.log2_le_pow2; lia).
  set (e := Z.log2 z - 52). assert (He : 1 <= e) by (unfold e; lia).
  assert (Hpow : 2 ^ 52 * 2 ^ e <= z).
  { rewrite <- Z.pow_add_r by lia. replace (52 + e) with (Z.log2 z) by (unfold e; lia).
    apply Z.log2_spec. lia. }
  assert (Hpos : 0 < 2 ^ e) by (apply Z.pow_pos_nonneg; lia).
  assert (Hq : 2 ^ 52 <= z / 2 ^ e) by (apply Z.div_le_lower_bound; lia).
  assert (H2 : 2 <= 2 ^ e).
  { change 2 with (2 ^ 1) at 1. apply Z.pow_le_mono_r; lia. }
  assert (Hs : Z.sgn z = 1) by (apply Z.sgn_pos; lia). rewrite Hs, Z.mul_1_l.
  set (q := z / 2 ^ e) in *.
  assert (Hm : forall m, q <= m -> 2 ^ 53 <= m * 2 ^ e).
  { intros m Hqm. change (2 ^ 53) with (2 ^ 52 * 2). nia. }
  destruct (z mod 2 ^ e <? 2 ^ (e - 1)); [apply Hm; lia|].
  destruct (2 ^ (e - 1) <? z mod 2 ^ e); [apply Hm; lia|].
  destruct (Z.even q); apply Hm; lia.
Qed.

(** A sum that reaches [n], at most [2 ^ 53], still reaches it as a double. *)
Lemma add_lower_bound n a b : 0 <= n <= 2 ^ 53 -> n <= a + b -> n <= add a b.
Proof.
  intros Hn Hab. unfold add.
  destruct (Z_lt_le_dec (a + b) (2 ^ 53)) as [Hlt|Hge].
  - rewrite round_double_exact by lia. exact Hab.
  - pose proof (round_double_large (a + b) Hge). lia.
Qed.

(** *** No overflow

    The largest double is below [2 ^ 1024]; the sums and the products of
    the components stay far below it, so that none of them is infinite. *)

Lemma round_double_below z K :
  53 <= K -> Z.abs z < 2 ^ K -> Z.abs (round_double z) <= 2 ^ K.
Proof.
  intros HK Hz. unfold round_double.
  destruct (Z.ltb_spec (Z.abs z) (2 ^ 53)) as [Hlt|Hge]; [lia|].
  set (a := Z.abs z) in *.
  assert (Ha : 0 < a) by (assert (0 < 2 ^ 53) by reflexivity; lia).
  destruct (Z.log2_spec a Ha) as [Hlo Hhi].
  assert (HL : 53 <= Z.log2 a) by (apply Z.log2_le_pow2; lia).
  assert (HLK : Z.log2 a < K) by (apply Z.log2_lt_pow2; lia).
  set (L := Z.log2 a) in *. set (e := L - 52).
  assert (He : 1 <= e) by (unfold e; lia).
  assert (Hpe : 0 < 2 ^ e) by (apply Z.pow_pos_nonneg; lia).
  assert (Hsplit : 2 ^ Z.succ L = 2 ^ 53 * 2 ^ e).
  { rewrite <- Z.pow_add_r by lia. f_equal. unfold e. lia. }
  assert (Hq : a / 2 ^ e < 2 ^ 53).
  { apply Z.div_lt_upper_bound; lia. }
  assert (Hq0 : 0 <= a / 2 ^ e) by (apply Z.div_pos; lia).
  assert (Hm : forall m, 0 <= m <= a / 2 ^ e + 1 ->
                         Z.abs (Z.sgn z * (m * 2 ^ e)) <= 2 ^ K).
  { intros m Hm. rewrite Z.abs_mul.
    assert (Hz0 : a <> 0) by lia.
    assert (Hs : Z.abs (Z.sgn z) = 1).
    { unfold a in Hz0. destruct z; simpl in *; lia. }
    rewrite Hs, Z.mul_1_l, Z.abs_eq by nia.
    assert (Hle : 2 ^ Z.succ L <= 2 ^ K) by (apply Z.pow_le_mono_r; lia).
    nia. }
  destruct (a mod 2 ^ e <? 2 ^ (e - 1)); [apply Hm; lia|].
  destruct (2 ^ (e - 1) <? a mod 2 ^ e); [apply Hm; lia|].
  destruct (Z.even (a / 2 ^ e)); apply Hm; lia.
Qed.

Lemma round_double_absorbs z K k :
  53 <= K -> 0 <= k <= K - 54 -> 2 ^ K <= Z.abs z <= 2 ^ K + 2 ^ k ->
  Z.abs (round_double z) = 2 ^ K.
Proof.
  intros HK Hk Hz. unfold round_double. set (a := Z.abs z) in *.
  assert (HK53 : 2 ^ 53 <= 2 ^ K) by (apply Z.pow_le_mono_r; lia).
  destruct (Z.ltb_spec a (2 ^ 53)) as [Hlt|_]; [lia|].
  assert (Hpk : 0 < 2 ^ k) by (apply Z.pow_pos_nonneg; lia).
  assert (HkK : 2 * 2 ^ k <= 2 ^ (K - 53)).
  { change 2 with (2 ^ 1) at 1. rewrite <- Z.pow_add_r by lia.
    apply Z.pow_le_mono_r; lia. }
  assert (HK1 : 2 ^ K = 2 ^ 53 * 2 ^ (K - 53)).
  { rewrite <- Z.pow_add_r by lia. f_equal. lia. }
  assert (Hp53 : 0 < 2 ^ (K - 53)) by (apply Z.pow_pos_nonneg; lia).
  assert (HL : Z.log2 a = K).
  { apply Z.log2_unique; [lia|]. split; [lia|].
    rewrite Z.pow_succ_r by lia. assert (0 < 2 ^ 53) by reflexivity. nia. }
  rewrite HL. set (e := K - 52).
  assert (He : 2 ^ e = 2 * 2 ^ (K - 53)).
  { change 2 with (2 ^ 1) at 2. rewrite <- Z.pow_add_r by lia. f_equal. unfold e. lia. }
  assert (He1 : 2 ^ (e - 1) = 2 ^ (K - 53)) by (f_equal; unfold e; lia).
  assert (HKe : 2 ^ K = 2 ^ 52 * 2 ^ e).
  { rewrite <- Z.pow_add_r by (unfold e; lia). f_equal. unfold e. lia. }
  assert (Hq : a / 2 ^ e = 2 ^ 52).
  { symmetry. apply (Z.div_unique a (2 ^ e) (2 ^ 52) (a - 2 ^ K)); lia. }
  assert (Hr : a mod 2 ^ e = a - 2 ^ K).
  { symmetry. apply (Z.mod_unique a (2 ^ e) (2 ^ 52) (a - 2 ^ K)); lia. }
  rewrite Hq, Hr, He1.
  destruct (Z.ltb_spec (a - 2 ^ K) (2 ^ (K - 53))) as [_|Hn]; [|lia].
  rewrite <- HKe, Z.abs_mul.
  assert (Hs : Z.abs (Z.sgn z) = 1).
  { assert (a <> 0) by lia. unfold a in *. destruct z; simpl in *; lia. }
  rewrite Hs. lia.
Qed.

(** A sum that stays within [2 ^ K] while the terms are within [2 ^ k],
    54 binary places below. *)
Lemma add_bounded acc x K k :
  53 <= K -> 0 <= k <= K - 54 ->
  Z.abs acc <= 2 ^ K -> Z.abs x <= 2 ^ k -> Z.abs (add acc x) <= 2 ^ K.
Proof.
  intros HK Hk Hacc Hx. unfold add.
  destruct (Z_lt_le_dec (Z.abs (acc + x)) (2 ^ K)) as [Hlt|Hge].
  - now apply round_double_below.
  - rewrite (round_double_absorbs (acc + x) K k); lia.
Qed.

Lemma mul_bounded (a b : t) : Z.abs (mul (value a) (value b)) <= 2 ^ 106.
Proof.
  pose proof (value_bounds a) as Ha. pose proof (value_bounds b) as Hb.
  unfold max_safe in *. apply round_double_below; [lia|].
  rewrite Z.abs_mul. change (2 ^ 106) with (2 ^ 53 * 2 ^ 53).
  assert (0 < 2 ^ 53) by reflexivity. nia.
Qed.

End JSNumberFacts.

Module JSONFacts.

(** *** Reading back what was printed *)

Lemma closed_cases rest :
  closed rest = true ->
  rest = [] \/ exists c r, rest = c :: r /\ (c = "," \/ c = "]" \/ c = "}")%char.
Proof.
  destruct rest as [|c r]; [now left|]. simpl. intros H. right. exists c, r.
  split; [reflexivity|].
  apply orb_true_iff in H as [H|H]; [apply orb_true_iff in H as [H|H]|];
    apply Ascii.eqb_eq in H; auto.
Qed.

Lemma closed_no_digit rest : closed rest = true -> read_uint rest = (Nil, rest).
Proof.
  intros H. destruct (closed_cases rest H) as [->|(c & r & -> & [->|[->| ->]])];
    reflexivity.
Qed.

Lemma closed_no_fraction rest :
  closed rest = true -> read_fraction rest = Ok (false, rest).
Proof.
  intros H. destruct (closed_cases rest H) as [->|(c & r & -> & [->|[->| ->]])];
    reflexivity.
Qed.

Lemma closed_no_exponent rest :
  closed rest = true -> read_exponent rest = Ok (false, rest).
Proof.
  intros H. destruct (closed_cases rest H) as [->|(c & r & -> & [->|[->| ->]])];
    reflexivity.
Qed.

Lemma closed_skip_ws rest : closed rest = true -> skip_ws rest = rest.
Proof.
  intros H. destruct (closed_cases rest H) as [->|(c & r & -> & [->|[->| ->]])];
    reflexivity.
Qed.

Lemma read_uint_print d rest :
  read_uint rest = (Nil, rest) -> read_uint (print_uint d ++ rest) = (d, rest).
Proof.
  intros H. induction d; simpl; rewrite ?IHd; auto.
Qed.

Lemma to_uint_plain n : plain (N.to_uint n).
Proof.
  assert (E : N.to_uint n = unorm (N.to_uint n)).
  { rewrite <- DecimalN.Unsigned.to_of, DecimalN.Unsigned.of_to. reflexivity. }
  rewrite E. generalize (N.to_uint n). intros d. unfold unorm.
  pose proof (nzhead_nonzero d) as Hd.
  destruct (nzhead d) eqn:Hn; simpl; auto.
  exfalso. eapply Hd. reflexivity.
Qed.

Lemma parse_number_print (negative : bool) d rest k :
  plain d -> closed rest = true ->
  JSNumber.of_Z (if negative then - Z.of_N (N.of_uint d) else Z.of_N (N.of_uint d)) =
    Some k ->
  parse_number negative (print_uint d ++ rest) = Ok (true, JNum k, rest).
Proof.
  intros Hd Hrest Hk. unfold parse_number.
  rewrite read_uint_print by (now apply closed_no_digit).
  rewrite (closed_no_fraction rest Hrest). cbn [rbind].
  rewrite (closed_no_exponent rest Hrest). cbn [rbind]. rewrite Hk.
  destruct d as [|d|d|d|d|d|d|d|d|d|d]; try reflexivity; [destruct Hd|].
  destruct d; try reflexivity; destruct Hd.
Qed.

Lemma parse_value_num fuel n rest :
  closed rest = true ->
  parse_value (S fuel) (print_Z (JSNumber.value n) ++ rest) = Ok (true, JNum n, rest).
Proof.
  intros Hrest. pose proof (JSNumberFacts.of_Z_value n) as Hn.
  unfold print_Z. destruct (Z.ltb_spec (JSNumber.value n) 0) as [Hz|Hz].
  - change (parse_value (S fuel)
              (("-"%char :: print_uint (N.to_uint (Z.abs_N (JSNumber.value n)))) ++ rest))
      with (parse_number true (print_uint (N.to_uint (Z.abs_N (JSNumber.value n))) ++ rest)).
    apply parse_number_print; auto using to_uint_plain.
    rewrite DecimalN.Unsigned.of_to, N2Z.inj_abs_N.
    replace (- Z.abs (JSNumber.value n)) with (JSNumber.value n) by lia. exact Hn.
  - pose proof (to_uint_plain (Z.to_N (JSNumber.value n))) as Hp.
    transitivity (parse_number false
                    (print_uint (N.to_uint (Z.to_N (JSNumber.value n))) ++ rest)).
    + destruct (N.to_uint (Z.to_N (JSNumber.value n))); try reflexivity. destruct Hp.
    + apply parse_number_print; auto.
      rewrite DecimalN.Unsigned.of_to, Z2N.id by lia. exact Hn.
Qed.

Lemma parse_chars_escape_char c s :
  parse_chars (escape_char c ++ s) = push c (parse_chars s).
Proof.
  destruct c as [[] [] [] [] [] [] [] []]; reflexivity.
Qed.

Lemma parse_chars_escape s rest :
  parse_chars (escape s ++ dquote :: rest) = Ok (true, s, rest).
Proof.
  induction s as [|c s IH]; simpl; [reflexivity|].
  rewrite <- app_assoc, parse_chars_escape_char, IH. reflexivity.
Qed.

Lemma parse_chars_print_string s rest :
  exists r, print_string s ++ rest = dquote :: r /\ parse_chars r = Ok (true, s, rest).
Proof.
  exists (escape s ++ dquote :: rest). split.
  - unfold print_string. simpl. rewrite <- app_assoc. reflexivity.
  - apply parse_chars_escape.
Qed.

Lemma print_uint_starts d rest : plain d -> starts_value (print_uint d ++ rest) = true.
Proof. destruct d; simpl; intros H; try reflexivity; destruct H. Qed.

Lemma print_starts v rest : starts_value (print v ++ rest) = true.
Proof.
  destruct v as [|[]|n|s|l|m]; try reflexivity.
  simpl. unfold print_Z. destruct (JSNumber.value n <? 0); [reflexivity|].
  apply print_uint_starts, to_uint_plain.
Qed.

Lemma starts_value_inv s :
  starts_value s = true ->
  exists c r, s = c :: r /\ is_ws c = false /\
              Ascii.eqb c "]" = false /\ Ascii.eqb c "}" = false.
Proof.
  destruct s as [|c r]; simpl; [discriminate|]. intros H.
  apply andb_true_iff in H as [H H3]. apply andb_true_iff in H as [H1 H2].
  exists c, r. repeat split; now apply negb_true_iff.
Qed.

Lemma parse_value_S f s :
  parse_value (S f) s =
  match skip_ws s with
  | [] => Throw SyntaxError
  | c :: r =>
      if Ascii.eqb c "[" then
        match skip_ws r with
        | c' :: r' =>
            if Ascii.eqb c' "]" then Ok (true, JArr [], r')
            else let* (ok, l, r'') := parse_elements f r in Ok (ok, JArr l, r'')
        | [] => Throw SyntaxError
        end
      else if Ascii.eqb c "{" then
        match skip_ws r with
        | c' :: r' =>
            if Ascii.eqb c' "}" then Ok (true, JObj [], r')
            else let* (ok, m, r'') := parse_members f r in Ok (ok, JObj m, r'')
        | [] => Throw SyntaxError
        end
      else if Ascii.eqb c dquote then
        let* (ok, str, r') := parse_chars r in Ok (ok, JStr str, r')
      else if Ascii.eqb c "-" then parse_number true r
      else if is_digit c then parse_number false (c :: r)
      else parse_literal (c :: r)
  end.
Proof. reflexivity. Qed.

Lemma parse_elements_S f s :
  parse_elements (S f) s =
  let* (ok, v, r) := parse_value f s in
  match skip_ws r with
  | c :: r' =>
      if Ascii.eqb c "," then
        let* (ok', l, r'') := parse_elements f r' in Ok (ok && ok', v :: l, r'')
      else if Ascii.eqb c "]" then Ok (ok, [v], r')
      else Throw SyntaxError
  | [] => Throw SyntaxError
  end.
Proof. reflexivity. Qed.

Lemma parse_members_S f s :
  parse_members (S f) s =
  match skip_ws s with
  | c :: r =>
      if Ascii.eqb c dquote then
        let* (okk, k, r1) := parse_chars r in
        match skip_ws r1 with
        | c1 :: r2 =>
            if Ascii.eqb c1 ":" then
              let* (okv, v, r3) := parse_value f r2 in
              match skip_ws r3 with
              | c3 :: r4 =>
                  if Ascii.eqb c3 "," then
                    let* (okm, m, r5) := parse_members f r4 in
                    Ok (okk && okv && okm, (k, v) :: m, r5)
                  else if Ascii.eqb c3 "}" then Ok (okk && okv, [(k, v)], r4)
                  else Throw SyntaxError
              | [] => Throw SyntaxError
              end
            else Throw SyntaxError
        | [] => Throw SyntaxError
        end
      else Throw SyntaxError
  | [] => Throw SyntaxError
  end.
Proof. reflexivity. Qed.

#[local] Arguments print : simpl never.
#[local] Arguments print_elements : simpl never.
#[local] Arguments print_members : simpl never.
#[local] Arguments print_string : simpl never.
#[local] Arguments parse_value : simpl never.
#[local] Arguments parse_elements : simpl never.
#[local] Arguments parse_members : simpl never.
#[local] Arguments parse_chars : simpl never.

Lemma print_elements_one v rest : print_elements [v] ++ rest = print v ++ rest.
Proof. reflexivity. Qed.

Lemma print_elements_more v v' l rest :
  print_elements (v :: v' :: l) ++ rest =
  print v ++ ","%char :: (print_elements (v' :: l) ++ rest).
Proof.
  change (print_elements (v :: v' :: l))
    with (print v ++ ","%char :: print_elements (v' :: l)).
  generalize (print v), (print_elements (v' :: l)).
  intros a b. rewrite <- app_assoc. reflexivity.
Qed.

Lemma print_members_one k v rest :
  print_members [(k, v)] ++ rest = print_string k ++ ":"%char :: (print v ++ rest).
Proof.
  change (print_members [(k, v)]) with (print_string k ++ ":"%char :: print v).
  generalize (print_string k), (print v).
  intros a b. rewrite <- app_assoc. reflexivity.
Qed.

Lemma print_members_more k v kv' m rest :
  print_members ((k, v) :: kv' :: m) ++ rest =
  print_string k ++ ":"%char :: (print v ++ ","%char :: (print_members (kv' :: m) ++ rest)).
Proof.
  change (print_members ((k, v) :: kv' :: m))
    with (print_string k ++ ":"%char :: print v ++ ","%char :: print_members (kv' :: m)).
  generalize (print_string k), (print v), (print_members (kv' :: m)).
  intros a b c. rewrite <- app_assoc. cbn [app]. rewrite <- app_assoc. reflexivity.
Qed.

Lemma parse_elements_print l :
  Forall reads_back l -> l <> [] ->
  forall fuel rest,
    (list_sum (List.map (fun x => S (jsize x)) l) <= fuel)%nat ->
    parse_elements fuel (print_elements l ++ "]"%char :: rest) = Ok (true, l, rest).
Proof.
  induction 1 as [|v l Hv Hl IH]; [congruence|]. intros _ fuel rest Hfuel.
  simpl in Hfuel. destruct fuel as [|f]; [lia|]. rewrite parse_elements_S.
  destruct l as [|v' l'].
  - rewrite print_elements_one, Hv by (simpl in *; auto; lia). reflexivity.
  - rewrite print_elements_more, Hv by (auto; lia).
    simpl.
    rewrite IH by (try discriminate; simpl in *; lia). reflexivity.
Qed.

Lemma parse_members_print m :
  Forall (fun kv => reads_back (snd kv)) m -> m <> [] ->
  forall fuel rest,
    (list_sum (List.map (fun kv => S (jsize (snd kv))) m) <= fuel)%nat ->
    parse_members fuel (print_members m ++ "}"%char :: rest) = Ok (true, m, rest).
Proof.
  induction 1 as [|[k v] m Hv Hm IH]; [congruence|]. intros _ fuel rest Hfuel.
  simpl in Hfuel, Hv. destruct fuel as [|f]; [lia|]. rewrite parse_members_S.
  destruct m as [|kv' m'].
  - rewrite print_members_one.
    destruct (parse_chars_print_string k (":"%char :: (print v ++ "}"%char :: rest)))
      as (r & -> & Hr).
    simpl. rewrite Hr.
    simpl.
    rewrite Hv by (auto; lia). reflexivity.
  - rewrite print_members_more.
    destruct (parse_chars_print_string k
                (":"%char :: (print v ++ ","%char :: (print_members (kv' :: m') ++ "}"%char :: rest))))
      as (r & -> & Hr).
    simpl. rewrite Hr.
    simpl.
    rewrite Hv by (auto; lia).
    simpl.
    rewrite IH by (try discriminate; simpl in *; lia). reflexivity.
Qed.

Lemma parse_value_print v : reads_back v.
Proof.
  induction v as [|b|n|s|l IH|m IH] using json_nested_ind;
    intros fuel rest Hfuel Hrest; (destruct fuel as [|f]; [simpl in Hfuel; lia|]).
  - reflexivity.
  - destruct b; reflexivity.
  - now apply parse_value_num.
  - destruct (parse_chars_print_string s rest) as (r & E & Hr).
    change (print (JStr s)) with (print_string s).
    rewrite E, parse_value_S. simpl. rewrite Hr. reflexivity.
  - change (print (JArr l) ++ rest)
      with ("["%char :: ((print_elements l ++ ["]"%char]) ++ rest)).
    rewrite <- app_assoc. cbn [app]. rewrite parse_value_S. simpl.
    destruct l as [|v l']; [reflexivity|].
    assert (Hs : starts_value (print_elements (v :: l') ++ "]"%char :: rest) = true).
    { destruct l'; [rewrite print_elements_one|rewrite print_elements_more];
        apply print_starts. }
    apply starts_value_inv in Hs as (c & r & E & Hws & Hc & _).
    rewrite E. simpl. rewrite Hws, Hc, <- E.
    rewrite parse_elements_print by (try done; simpl in *; lia). reflexivity.
  - change (print (JObj m) ++ rest)
      with ("{"%char :: ((print_members m ++ ["}"%char]) ++ rest)).
    rewrite <- app_assoc. cbn [app]. rewrite parse_value_S. simpl.
    destruct m as [|[k v] m']; [reflexivity|].
    assert (Hs : exists r, print_members ((k, v) :: m') ++ "}"%char :: rest = dquote :: r).
    { destruct m' as [|kv' m'']; [rewrite print_members_one|rewrite print_members_more];
        unfold print_string; simpl; eauto. }
    destruct Hs as (r & E). rewrite E. simpl. rewrite <- E.
    rewrite parse_members_print by (try done; simpl in *; lia). reflexivity.
Qed.

Lemma print_uint_length d : plain d -> (1 <= length (print_uint d))%nat.
Proof. destruct d; simpl; intros H; try lia; destruct H. Qed.

Lemma print_elements_length l :
  Forall (fun v => (jsize v <= length (print v))%nat) l ->
  (list_sum (List.map (fun x => S (jsize x)) l) <= S (length (print_elements l)))%nat.
Proof.
  induction 1 as [|v l Hv Hl IH]; [simpl; lia|].
  destruct l as [|v' l'].
  - change (print_elements [v]) with (print v). simpl. lia.
  - change (print_elements (v :: v' :: l'))
      with (print v ++ ","%char :: print_elements (v' :: l')).
    rewrite length_app. simpl in *. lia.
Qed.

Lemma print_members_length m :
  Forall (fun kv => (jsize (snd kv) <= length (print (snd kv)))%nat) m ->
  (list_sum (List.map (fun kv => S (jsize (snd kv))) m) <= S (length (print_members m)))%nat.
Proof.
  induction 1 as [|[k v] m Hv Hm IH]; [simpl; lia|].
  destruct m as [|kv' m'].
  - change (print_members [(k, v)]) with (print_string k ++ ":"%char :: print v).
    rewrite length_app. simpl in *. lia.
  - change (print_members ((k, v) :: kv' :: m'))
      with (print_string k ++ ":"%char :: print v ++ ","%char :: print_members (kv' :: m')).
    rewrite length_app. simpl. rewrite !length_app. simpl in *. lia.
Qed.

Lemma jsize_le_print v : (jsize v <= length (print v))%nat.
Proof.
  induction v as [|b|n|s|l IH|m IH] using json_nested_ind.
  - simpl. unfold print. simpl. lia.
  - destruct b; unfold print; simpl; lia.
  - change (print (JNum n)) with (print_Z (JSNumber.value n)). unfold print_Z. simpl.
    destruct (JSNumber.value n <? 0); simpl; [lia|].
    apply print_uint_length, to_uint_plain.
  - change (print (JStr s)) with (print_string s). unfold print_string. simpl. lia.
  - change (print (JArr l)) with ("["%char :: print_elements l ++ ["]"%char]).
    pose proof (print_elements_length l IH). simpl. rewrite length_app. simpl. lia.
  - change (print (JObj m)) with ("{"%char :: print_members m ++ ["}"%char]).
    pose proof (print_members_length m IH). simpl. rewrite length_app. simpl. lia.
Qed.

Lemma length_text l : String.length (text l) = length l.
Proof. induction l as [|c l IH]; simpl; [reflexivity|]. now rewrite IH. Qed.

(** [JSON.parse] reads back every text that [JSON.stringify] wrote. *)
Theorem parse_stringify v : parse (stringify v) = Ok v.
Proof.
  unfold parse, stringify, chars, fuel_for.
  rewrite list_ascii_of_string_of_list_ascii.
  pose proof (jsize_le_print v) as Hsize.
  pose proof (parse_value_print v (2 * length (print v) + 2)%nat []) as H.
  rewrite app_nil_r in H. rewrite H; [reflexivity | lia | reflexivity].
Qed.

(** *** The parser never runs out of fuel on a text *)

Lemma skip_ws_length s : (length (skip_ws s) <= length s)%nat.
Proof.
  induction s as [|c s IH]; simpl; [lia|]. destruct (is_ws c); simpl; lia.
Qed.

Lemma skip_ws_cons s c r : skip_ws s = c :: r -> (S (length r) <= length s)%nat.
Proof. intros H. pose proof (skip_ws_length s) as Hl. rewrite H in Hl. exact Hl. Qed.

Lemma read_uint_length s : (length (snd (read_uint s)) <= length s)%nat.
Proof.
  induction s as [|c s IH]; simpl; [lia|].
  destruct (digit_ctor c); simpl; [|lia].
  destruct (read_uint s) as [d r]. simpl in *. lia.
Qed.

Lemma skip_sign_length s : (length (skip_sign s) <= length s)%nat.
Proof.
  destruct s as [|c r]; simpl; [lia|].
  destruct (Ascii.eqb c "+" || Ascii.eqb c "-"); simpl; lia.
Qed.

Lemma read_fraction_length s flag r :
  read_fraction s = Ok (flag, r) -> (length r <= length s)%nat.
Proof.
  destruct s as [|c s]; simpl; [intros [= <- <-]; simpl; lia|].
  destruct (Ascii.eqb c "."); [|intros [= <- <-]; simpl; lia].
  pose proof (read_uint_length s) as Hl. destruct (read_uint s) as [d r'].
  destruct (is_nil d); [discriminate|]. intros [= <- <-]. simpl in Hl. lia.
Qed.

Lemma read_exponent_length s flag r :
  read_exponent s = Ok (flag, r) -> (length r <= length s)%nat.
Proof.
  destruct s as [|c s]; simpl; [intros [= <- <-]; simpl; lia|].
  destruct (Ascii.eqb c "e" || Ascii.eqb c "E"); [|intros [= <- <-]; simpl; lia].
  pose proof (read_uint_length (skip_sign s)) as Hl.
  pose proof (skip_sign_length s) as Hs.
  destruct (read_uint (skip_sign s)) as [d r'].
  destruct (is_nil d); [discriminate|]. intros [= <- <-]. simpl in Hl. lia.
Qed.

Lemma parse_number_length negative s ok v r :
  parse_number negative s = Ok (ok, v, r) -> (length r <= length s)%nat.
Proof.
  unfold parse_number. pose proof (read_uint_length s) as Hl.
  destruct (read_uint s) as [d r0]. simpl in Hl.
  assert (H : (let* (fraction, r1) := read_fraction r0 in
               let* (exponent, r2) := read_exponent r1 in
               let n := Z.of_N (N.of_uint d) in
               match JSNumber.of_Z (if negative then - n else n) with
               | Some k => Ok (negb (fraction || exponent), JNum k, r2)
               | None => Ok (false, JNum JSNumber.zero, r2)
               end) = Ok (ok, v, r) -> (length r <= length s)%nat).
  { destruct (read_fraction r0) as [[fr r1]| |] eqn:Ef; try discriminate.
    apply read_fraction_length in Ef. cbn [rbind].
    destruct (read_exponent r1) as [[ex r2]| |] eqn:Ee; try discriminate.
    apply read_exponent_length in Ee. cbn [rbind]. cbv zeta.
    destruct (JSNumber.of_Z _); intros [= _ _ <-]; lia. }
  destruct d as [|d|d|d|d|d|d|d|d|d|d]; try exact H; [discriminate|].
  destruct d; try exact H; discriminate.
Qed.

Lemma parse_number_fuel negative s : parse_number negative s <> OutOfModel.
Proof.
  unfold parse_number. destruct (read_uint s) as [d r0].
  assert (H : (let* (fraction, r1) := read_fraction r0 in
               let* (exponent, r2) := read_exponent r1 in
               let n := Z.of_N (N.of_uint d) in
               match JSNumber.of_Z (if negative then - n else n) with
               | Some k => Ok (negb (fraction || exponent), JNum k, r2)
               | None => Ok (false, JNum JSNumber.zero, r2)
               end) <> OutOfModel).
  { assert (Hf : read_fraction r0 <> OutOfModel).
    { unfold read_fraction. destruct r0 as [|c r]; [discriminate|].
      destruct (Ascii.eqb c "."); [|discriminate].
      destruct (read_uint r) as [x r']. destruct (is_nil x); discriminate. }
    destruct (read_fraction r0) as [[fr r1]| |]; [|discriminate|congruence].
    cbn [rbind].
    assert (He : read_exponent r1 <> OutOfModel).
    { unfold read_exponent. destruct r1 as [|c r]; [discriminate|].
      destruct (Ascii.eqb c "e" || Ascii.eqb c "E"); [|discriminate].
      destruct (read_uint (skip_sign r)) as [x r']. destruct (is_nil x); discriminate. }
    destruct (read_exponent r1) as [[ex r2]| |]; [|discriminate|congruence].
    cbn [rbind]. cbv zeta. destruct (JSNumber.of_Z _); discriminate. }
  destruct d as [|d|d|d|d|d|d|d|d|d|d]; try exact H; [discriminate|].
  destruct d; try exact H; discriminate.
Qed.

Lemma push_inv c x ok str r :
  push c x = Ok (ok, str, r) ->
  exists ok' str', x = Ok (ok', str', r).
Proof.
  unfold push. destruct x as [[[ok' str'] r']| |]; simpl; try discriminate.
  intros [= _ _ <-]. eauto.
Qed.

Lemma outside_inv x ok str r :
  outside x = Ok (ok, str, r) ->
  exists ok' str', x = Ok (ok', str', r).
Proof.
  unfold outside. destruct x as [[[ok' str'] r']| |]; simpl; try discriminate.
  intros [= _ _ <-]. eauto.
Qed.

Lemma parse_chars_cons c r :
  parse_chars (c :: r) =
  if Ascii.eqb c dquote then Ok (true, EmptyString, r)
  else if Ascii.eqb c backslash then
    match r with
    | [] => Throw SyntaxError
    | e :: r1 =>
        if Ascii.eqb e "u" then
          match r1 with
          | h1 :: h2 :: h3 :: h4 :: r2 =>
              match hex4 h1 h2 h3 h4 with
              | None => Throw SyntaxError
              | Some n =>
                  if (n <? 256)%N then push (ascii_of_N n) (parse_chars r2)
                  else outside (parse_chars r2)
              end
          | _ => Throw SyntaxError
          end
        else
          match unescape e with
          | Some c' => push c' (parse_chars r1)
          | None => Throw SyntaxError
          end
    end
  else if (code c <? 32)%N then Throw SyntaxError
  else push c (parse_chars r).
Proof. reflexivity. Qed.

Lemma parse_chars_length s :
  parse_chars s <> OutOfModel /\
  forall ok str r, parse_chars s = Ok (ok, str, r) -> (length r <= length s)%nat.
Proof.
  remember (length s) as n eqn:Hn. revert s Hn.
  induction n as [n IH] using lt_wf_ind. intros s ->.
  assert (Hpush : forall c t, (length t < length s)%nat ->
            push c (parse_chars t) <> OutOfModel /\
            forall ok str r, push c (parse_chars t) = Ok (ok, str, r) ->
                             (length r <= length s)%nat).
  { intros c t Ht. destruct (IH _ Ht t eq_refl) as [H1 H2]. split.
    - unfold push. destruct (parse_chars t) as [[[? ?] ?]| |]; simpl; congruence.
    - intros ok str r H. apply push_inv in H as (ok' & str' & H).
      apply H2 in H. lia. }
  assert (Hout : forall t, (length t < length s)%nat ->
            outside (parse_chars t) <> OutOfModel /\
            forall ok str r, outside (parse_chars t) = Ok (ok, str, r) ->
                             (length r <= length s)%nat).
  { intros t Ht. destruct (IH _ Ht t eq_refl) as [H1 H2]. split.
    - unfold outside. destruct (parse_chars t) as [[[? ?] ?]| |]; simpl; congruence.
    - intros ok str r H. apply outside_inv in H as (ok' & str' & H).
      apply H2 in H. lia. }
  destruct s as [|c r0]; [split; [discriminate|intros ? ? ? ?; discriminate]|].
  rewrite parse_chars_cons.
  destruct (Ascii.eqb c dquote).
  { split; [discriminate|]. intros ok str r [= _ _ <-]. simpl. lia. }
  destruct (Ascii.eqb c backslash).
  - destruct r0 as [|e r1]; [split; [discriminate|intros ? ? ? ?; discriminate]|].
    destruct (Ascii.eqb e "u").
    + destruct r1 as [|h1 [|h2 [|h3 [|h4 r2]]]]; try (split; [discriminate|intros ? ? ? ?; discriminate]).
      destruct (hex4 h1 h2 h3 h4) as [n|]; [|split; [discriminate|intros ? ? ? ?; discriminate]].
      destruct (n <? 256)%N; [apply Hpush|apply Hout]; simpl; lia.
    + destruct (unescape e); [|split; [discriminate|intros ? ? ? ?; discriminate]]. apply Hpush. simpl. lia.
  - destruct (code c <? 32)%N; [split; [discriminate|intros ? ? ? ?; discriminate]|]. apply Hpush. simpl. lia.
Qed.

Lemma strip_prefix_length p s r : strip_prefix p s = Some r -> (length r <= length s)%nat.
Proof.
  revert s. induction p as [|a p IH]; intros [|b s]; simpl;
    try (intros [= <-]; simpl; lia); try discriminate.
  destruct (Ascii.eqb a b); [|discriminate]. intros H. apply IH in H. lia.
Qed.

Lemma parse_literal_length s ok v r :
  parse_literal s = Ok (ok, v, r) -> (length r <= length s)%nat.
Proof.
  unfold parse_literal.
  destruct (strip_prefix (chars "null") s) eqn:E1;
    [intros [= _ _ <-]; now apply strip_prefix_length in E1|].
  destruct (strip_prefix (chars "true") s) eqn:E2;
    [intros [= _ _ <-]; now apply strip_prefix_length in E2|].
  destruct (strip_prefix (chars "false") s) eqn:E3;
    [intros [= _ _ <-]; now apply strip_prefix_length in E3|discriminate].
Qed.

Lemma parse_literal_fuel s : parse_literal s <> OutOfModel.
Proof.
  unfold parse_literal.
  destruct (strip_prefix (chars "null") s); [discriminate|].
  destruct (strip_prefix (chars "true") s); [discriminate|].
  destruct (strip_prefix (chars "false") s); discriminate.
Qed.


Lemma rbind_Ok {A B : Type} (x : result A) (k : A -> result B) (b : B) :
  rbind x k = Ok b -> exists a, x = Ok a /\ k a = Ok b.
Proof. destruct x as [a| |]; simpl; try discriminate. eauto. Qed.

Lemma rbind_fuel {A B : Type} (x : result A) (k : A -> result B) :
  x <> OutOfModel -> (forall a, x = Ok a -> k a <> OutOfModel) ->
  rbind x k <> OutOfModel.
Proof. destruct x as [a| |]; simpl; auto; try discriminate. Qed.

(** What a parser leaves is no longer than what it was given. *)
Lemma parse_length f :
  (forall s ok v r, parse_value f s = Ok (ok, v, r) -> (length r <= length s)%nat) /\
  (forall s ok l r, parse_elements f s = Ok (ok, l, r) -> (length r <= length s)%nat) /\
  (forall s ok m r, parse_members f s = Ok (ok, m, r) -> (length r <= length s)%nat).
Proof.
  induction f as [|f (IHv & IHe & IHm)]; [repeat split; discriminate|].
  split; [|split].
  - intros s ok v r. rewrite parse_value_S.
    destruct (skip_ws s) as [|c r0] eqn:Es; [discriminate|].
    apply skip_ws_cons in Es.
    destruct (Ascii.eqb c "[").
    { destruct (skip_ws r0) as [|c' r'] eqn:Er; [discriminate|].
      apply skip_ws_cons in Er.
      destruct (Ascii.eqb c' "]"); [intros [= _ _ <-]; lia|].
      intros H. apply rbind_Ok in H as ([[ok' l] r''] & H & [= _ _ <-]).
      apply IHe in H. lia. }
    destruct (Ascii.eqb c "{").
    { destruct (skip_ws r0) as [|c' r'] eqn:Er; [discriminate|].
      apply skip_ws_cons in Er.
      destruct (Ascii.eqb c' "}"); [intros [= _ _ <-]; lia|].
      intros H. apply rbind_Ok in H as ([[ok' m] r''] & H & [= _ _ <-]).
      apply IHm in H. lia. }
    destruct (Ascii.eqb c dquote).
    { intros H. apply rbind_Ok in H as ([[ok' str] r'] & H & [= _ _ <-]).
      apply parse_chars_length in H. lia. }
    destruct (Ascii.eqb c "-").
    { intros H. apply parse_number_length in H. lia. }
    destruct (is_digit c).
    { intros H. apply parse_number_length in H. simpl in H. lia. }
    intros H. apply parse_literal_length in H. simpl in H. lia.
  - intros s ok l r. rewrite parse_elements_S. intros H.
    apply rbind_Ok in H as ([[ok' v] r0] & Hv & H). apply IHv in Hv.
    destruct (skip_ws r0) as [|c r'] eqn:Er; [discriminate|].
    apply skip_ws_cons in Er.
    destruct (Ascii.eqb c ",").
    { apply rbind_Ok in H as ([[ok'' l'] r''] & H & [= _ _ <-]).
      apply IHe in H. lia. }
    destruct (Ascii.eqb c "]"); [|discriminate].
    injection H as _ _ <-. lia.
  - intros s ok m r. rewrite parse_members_S.
    destruct (skip_ws s) as [|c r0] eqn:Es; [discriminate|].
    apply skip_ws_cons in Es.
    destruct (Ascii.eqb c dquote); [|discriminate]. intros H.
    apply rbind_Ok in H as ([[okk k] r1] & Hk & H).
    apply parse_chars_length in Hk.
    destruct (skip_ws r1) as [|c1 r2] eqn:E1; [discriminate|].
    apply skip_ws_cons in E1.
    destruct (Ascii.eqb c1 ":"); [|discriminate].
    apply rbind_Ok in H as ([[okv v] r3] & Hv & H). apply IHv in Hv.
    destruct (skip_ws r3) as [|c3 r4] eqn:E3; [discriminate|].
    apply skip_ws_cons in E3.
    destruct (Ascii.eqb c3 ",").
    { apply rbind_Ok in H as ([[okm m'] r5] & H & [= _ _ <-]).
      apply IHm in H. lia. }
    destruct (Ascii.eqb c3 "}"); [|discriminate].
    injection H as _ _ <-. lia.
Qed.

(** With two units of fuel for a character, the parsers do not stop for
    want of fuel. *)
Lemma parse_fuel f :
  (forall s, (2 * length s + 1 <= f)%nat -> parse_value f s <> OutOfModel) /\
  (forall s, (2 * length s + 2 <= f)%nat -> parse_elements f s <> OutOfModel) /\
  (forall s, (2 * length s + 2 <= f)%nat -> parse_members f s <> OutOfModel).
Proof.
  induction f as [|f (IHv & IHe & IHm)]; [repeat split; intros s Hs; lia|].
  destruct (parse_length f) as (Lv & Le & Lm).
  split; [|split].
  - intros s Hs. rewrite parse_value_S.
    destruct (skip_ws s) as [|c r0] eqn:Es; [discriminate|].
    apply skip_ws_cons in Es.
    destruct (Ascii.eqb c "[").
    { destruct (skip_ws r0) as [|c' r'] eqn:Er; [discriminate|].
      destruct (Ascii.eqb c' "]"); [discriminate|].
      apply rbind_fuel; [apply IHe; lia|]. intros [[ok l] r''] _. discriminate. }
    destruct (Ascii.eqb c "{").
    { destruct (skip_ws r0) as [|c' r'] eqn:Er; [discriminate|].
      destruct (Ascii.eqb c' "}"); [discriminate|].
      apply rbind_fuel; [apply IHm; lia|]. intros [[ok m] r''] _. discriminate. }
    destruct (Ascii.eqb c dquote).
    { apply rbind_fuel; [apply parse_chars_length|].
      intros [[ok str] r'] _. discriminate. }
    destruct (Ascii.eqb c "-"); [apply parse_number_fuel|].
    destruct (is_digit c); [apply parse_number_fuel|apply parse_literal_fuel].
  - intros s Hs. rewrite parse_elements_S.
    apply rbind_fuel; [apply IHv; lia|]. intros [[ok v] r0] Hv. apply Lv in Hv.
    destruct (skip_ws r0) as [|c r'] eqn:Er; [discriminate|].
    apply skip_ws_cons in Er.
    destruct (Ascii.eqb c ",").
    { apply rbind_fuel; [apply IHe; lia|]. intros [[ok' l] r''] _. discriminate. }
    destruct (Ascii.eqb c "]"); discriminate.
  - intros s Hs. rewrite parse_members_S.
    destruct (skip_ws s) as [|c r0] eqn:Es; [discriminate|].
    apply skip_ws_cons in Es.
    destruct (Ascii.eqb c dquote); [|discriminate].
    apply rbind_fuel; [apply parse_chars_length|]. intros [[okk k] r1] Hk.
    apply parse_chars_length in Hk.
    destruct (skip_ws r1) as [|c1 r2] eqn:E1; [discriminate|].
    apply skip_ws_cons in E1.
    destruct (Ascii.eqb c1 ":"); [|discriminate].
    apply rbind_fuel; [apply IHv; lia|]. intros [[okv v] r3] Hv. apply Lv in Hv.
    destruct (skip_ws r3) as [|c3 r4] eqn:E3; [discriminate|].
    apply skip_ws_cons in E3.
    destruct (Ascii.eqb c3 ",").
    { apply rbind_fuel; [apply IHm; lia|]. intros [[okm m] r5] _. discriminate. }
    destruct (Ascii.eqb c3 "}"); discriminate.
Qed.

(** [JSON.parse] leaves the model on no text for want of fuel: it does so
    exactly on the texts that it reads to their end as a value with a part
    that the model does not hold (a number that is no safe integer, a
    character above 255); on every other text it returns or throws. *)
Theorem parse_OutOfModel s :
  parse s = OutOfModel <->
  exists v r,
    parse_value (fuel_for (chars s)) (chars s) = Ok (false, v, r) /\ skip_ws r = [].
Proof.
  unfold parse.
  pose proof (proj1 (parse_fuel (fuel_for (chars s))) (chars s)) as Hfuel.
  destruct (parse_value (fuel_for (chars s)) (chars s)) as [[[ok v] r]| |]; simpl.
  - destruct (skip_ws r) as [|c r'] eqn:Er.
    + destruct ok.
      * split; [discriminate|]. intros (v' & r'' & H & _). discriminate H.
      * split; [|reflexivity]. intros _. exists v, r. auto.
    + split; [discriminate|]. intros (v' & r'' & H & Hr).
      injection H as _ _ <-. congruence.
  - split; [discriminate|]. intros (v' & r'' & H & _). discriminate H.
  - exfalso. apply Hfuel; [unfold fuel_for; lia|reflexivity].
Qed.

End JSONFacts.

Import JSONFacts.

Module CodecFacts.
Import Codec.

Lemma decode_all_encode {A : Type} (enc : A -> json) (dec : json -> option A) l :
  (forall a, dec (enc a) = Some a) -> decode_all dec (List.map enc l) = Some l.
Proof.
  intros H. induction l as [|a l IH]; simpl; [reflexivity|].
  now rewrite H, IH.
Qed.

Lemma decode_encode_CartItem i : decode_CartItem (encode_CartItem i) = Some i.
Proof. destruct i. reflexivity. Qed.

Lemma decode_encode_Order o : decode_Order (encode_Order o) = Some o.
Proof.
  destruct o as [a its c d e]. cbn.
  now rewrite (decode_all_encode _ _ its decode_encode_CartItem).
Qed.

Lemma decode_encode_CustomRequest r :
  decode_CustomRequest (encode_CustomRequest r) = Some r.
Proof. destruct r as [? ? ? ? ? ? ? ? ? [img|] ? ?]; reflexivity. Qed.

Lemma parse_stringify_array {A : Type} (enc : A -> json) (dec : json -> option A) l :
  (forall a, dec (enc a) = Some a) ->
  parse_array dec (stringify_array enc l) = Ok l.
Proof.
  intros H. unfold parse_array, stringify_array. rewrite parse_stringify.
  simpl. now rewrite (decode_all_encode enc dec l H).
Qed.

End CodecFacts.

(** *** The parser and the string functions on examples *)

Example parse_empty_array_text : JSON.parse "[]" = Ok (JArr []).
Proof. reflexivity. Qed.

Example parse_spaced_array :
  JSON.parse " [1, -20 ,[true,null]] " =
  Ok (JArr [JNum (JSNumber.num 1); JNum (JSNumber.num (-20)); JArr [JBool true; JNull]]).
Proof. reflexivity. Qed.

Example parse_rejects_words : JSON.parse "not json" = Throw SyntaxError.
Proof. reflexivity. Qed.

Example parse_rejects_empty_text : JSON.parse "" = Throw SyntaxError.
Proof. reflexivity. Qed.

Example parse_rejects_trailing_comma : JSON.parse "[1,]" = Throw SyntaxError.
Proof. reflexivity. Qed.

Example parse_rejects_leading_zero : JSON.parse "01" = Throw SyntaxError.
Proof. reflexivity. Qed.

Example parse_leaves_fractions : JSON.parse "19.99" = OutOfModel.
Proof. reflexivity. Qed.

Example parse_rejects_point_without_digits : JSON.parse "[1.]" = Throw SyntaxError.
Proof. reflexivity. Qed.

Example parse_rejects_exponent_without_digits : JSON.parse "1e+" = Throw SyntaxError.
Proof. reflexivity. Qed.

Example parse_rejects_fraction_then_comma : JSON.parse "[1.5,]" = Throw SyntaxError.
Proof. reflexivity. Qed.

Example parse_rejects_open_brackets : JSON.parse "[[[[" = Throw SyntaxError.
Proof. reflexivity. Qed.

Example parse_leaves_exponents : JSON.parse "[2e3]" = OutOfModel.
Proof. reflexivity. Qed.

Example parse_reads_largest_safe_integer :
  JSON.parse "-9007199254740991" = Ok (JNum (JSNumber.num (-9007199254740991))).
Proof. reflexivity. Qed.

Example parse_leaves_rounded_integers : JSON.parse "9007199254740993" = OutOfModel.
Proof. reflexivity. Qed.

Example parse_reads_negative_zero : JSON.parse "-0" = Ok (JNum (JSNumber.num 0)).
Proof. reflexivity. Qed.

Example round_double_to_even :
  JSNumber.round_double (2 ^ 53 + 1) = 2 ^ 53 /\
  JSNumber.round_double (2 ^ 53 + 3) = 2 ^ 53 + 4 /\
  JSNumber.round_double (- (2 ^ 53 + 3)) = - (2 ^ 53 + 4) /\
  JSNumber.round_double (2 ^ 54 - 1) = 2 ^ 54 /\
  JSNumber.add (2 ^ 53) 1 = 2 ^ 53 /\
  JSNumber.mul (2 ^ 53 - 1) 3 = 3 * 2 ^ 53 - 4.
Proof. repeat split; vm_compute; reflexivity. Qed.

Example stringify_cart :
  Codec.stringify_array Codec.encode_CartItem [Sample.hand_towel] =
  JSON.text
    (chars "[{" ++ print_string "id" ++ chars ":" ++ print_string "t2" ++
     chars "," ++ print_string "name" ++ chars ":" ++ print_string "Hand towel" ++
     chars "," ++ print_string "price" ++ chars ":90," ++
     print_string "quantity" ++ chars ":3," ++
     print_string "image" ++ chars ":" ++ print_string "hand.png" ++ chars "}]").
Proof. reflexivity. Qed.

Example trim_both_ends : JSString.trim "  ORD 7 " = "ORD 7"%string.
Proof. reflexivity. Qed.

Example trim_blank : JSString.trim "   " = ""%string.
Proof. reflexivity. Qed.

Example lower_case_id : JSString.toLowerCase "ORD-1001a" = "ord-1001a"%string.
Proof. reflexivity. Qed.

Example includes_inside : JSString.includes "ord-1001" "-10" = true.
Proof. reflexivity. Qed.

Example includes_absent : JSString.includes "ord-1001" "2" = false.
Proof. reflexivity. Qed.

(** ** Lists and strings *)

Section list_facts.
Context {A : Type}.

Lemma filter_bool_prop (f : A -> bool) (P : A -> Prop)
      `{!forall x, Decision (P x)} (l : list A) :
  (forall x, f x = true <-> P x) -> List.filter f l = filter P l.
Proof.
  intros Hf. induction l as [|x l IH]; [reflexivity|].
  simpl. rewrite filter_cons, IH.
  destruct (f x) eqn:E; destruct (decide (P x)) as [HP|HP]; try reflexivity.
  - exfalso. apply HP, Hf, E.
  - apply Hf in HP. congruence.
Qed.

Lemma magnitude_cons (q : A -> Z) (x : A) (l : list A) :
  magnitude q (x :: l) = Z.abs (q x) + magnitude q l.
Proof. reflexivity. Qed.

Lemma sum_cons (q : A -> Z) (x : A) (l : list A) :
  foldr Z.add 0 (q <$> x :: l) = q x + foldr Z.add 0 (q <$> l).
Proof. reflexivity. Qed.

Lemma magnitude_nonneg (q : A -> Z) (l : list A) : 0 <= magnitude q l.
Proof.
  induction l as [|x l IH]; [reflexivity|]. rewrite magnitude_cons. lia.
Qed.

Lemma magnitude_filter (f : A -> bool) (q : A -> Z) (l : list A) :
  magnitude q (List.filter f l) <= magnitude q l.
Proof.
  induction l as [|x l IH]; [reflexivity|].
  simpl. destruct (f x); rewrite !magnitude_cons; lia.
Qed.

Lemma magnitude_member (q : A -> Z) (l : list A) (x : A) :
  x ∈ l -> Z.abs (q x) <= magnitude q l.
Proof.
  intros H. induction H as [x l|x y l _ IH]; rewrite magnitude_cons.
  - pose proof (magnitude_nonneg q l). lia.
  - lia.
Qed.

(** A sum in doubles, from left to right, of terms [g x] that are the
    integers [q x] while these are safe: it is the sum of the integers
    when their magnitudes add up to a safe integer. *)
Lemma fold_add_exact (g q : A -> Z) (l : list A) (z : Z) :
  (forall x, Z.abs (q x) <= JSNumber.max_safe -> g x = q x) ->
  Z.abs z + magnitude q l <= JSNumber.max_safe ->
  fold_left (fun sum x => JSNumber.add sum (g x)) l z = z + foldr Z.add 0 (q <$> l).
Proof.
  intros Hg. revert z. induction l as [|x l IH]; intros z Hz; [simpl; lia|].
  pose proof (magnitude_nonneg q l) as Hl.
  rewrite magnitude_cons in Hz. rewrite sum_cons. cbn [fold_left].
  rewrite Hg by lia. rewrite JSNumberFacts.add_exact by lia.
  rewrite IH by lia. lia.
Qed.

Lemma sum_split (f : A -> bool) (q : A -> Z) (l : list A) :
  foldr Z.add 0 (q <$> l) =
  foldr Z.add 0 (q <$> List.filter f l) +
  foldr Z.add 0 (q <$> List.filter (fun x => negb (f x)) l).
Proof.
  induction l as [|x l IH]; [reflexivity|].
  rewrite sum_cons. simpl List.filter. destruct (f x); simpl negb; cbv iota;
    rewrite sum_cons; lia.
Qed.

(** The fold over the lines of a list is the fold over the list. *)
Lemma fold_left_fmap {B C : Type} (h : A -> B) (op : C -> B -> C) (l : list A) (z : C) :
  fold_left op (h <$> l) z = fold_left (fun c x => op c (h x)) l z.
Proof.
  revert z. induction l as [|x l IH]; intros z; simpl; [reflexivity|]. apply IH.
Qed.
End list_facts.

Lemma string_eqb_neq (a b : string) : negb (String.eqb a b) = true <-> a <> b.
Proof.
  destruct (String.eqb_spec a b); simpl; split; intros; congruence.
Qed.

(** ** The cart *)

Lemma cartItemsCount_sum cart :
  counts_exactly cart -> Navbar.cartItemsCount cart = sum_of_quantities cart.
Proof.
  intros H. unfold Navbar.cartItemsCount, sum_of_quantities.
  rewrite (fold_add_exact quantity_of quantity_of) by (auto; simpl; exact H).
  lia.
Qed.

(** The badge count is a finite number on every cart. *)
Lemma cartItemsCount_finite cart : Z.abs (Navbar.cartItemsCount cart) <= 2 ^ 107.
Proof.
  unfold Navbar.cartItemsCount.
  assert (H : forall sum, Z.abs sum <= 2 ^ 107 ->
            Z.abs (fold_left
                     (fun sum item =>
                        JSNumber.add sum (JSNumber.value (CartItem.quantity item)))
                     cart sum) <= 2 ^ 107).
  { induction cart as [|item cart IH]; intros sum Hsum; [exact Hsum|].
    apply IH. apply (JSNumberFacts.add_bounded _ _ 107 53); try lia.
    pose proof (JSNumberFacts.value_bounds (CartItem.quantity item)) as Hq.
    unfold JSNumber.max_safe in Hq. lia. }
  apply H. rewrite Z.abs_0. apply Z.pow_nonneg. lia.
Qed.

Lemma counts_exactly_filter (f : CartItem.t -> bool) cart :
  counts_exactly cart -> counts_exactly (List.filter f cart).
Proof.
  unfold counts_exactly. intros H.
  pose proof (magnitude_filter f quantity_of cart). lia.
Qed.

(** The list [removeFromCart] computes. *)
Lemma removeFromCart_run id prevItems b :
  Navbar.removeFromCart id prevItems b =
  let updatedItems := filter (fun item => CartItem.id item <> id) prevItems in
  let written := Codec.stringify_array Codec.encode_CartItem updatedItems in
  (Ok updatedItems,
   Browser.mk (<["cartItems" := written]> (localStorage b))
              (trace b ++ [SetItem "cartItems" written])).
Proof.
  unfold Navbar.removeFromCart, Browser.bind, setItem, ret. simpl.
  rewrite (filter_bool_prop _ (fun item => CartItem.id item <> id))
    by (intros x; apply string_eqb_neq).
  reflexivity.
Qed.

(** C2.  For every cart list and every id, [removeFromCart] produces the
    list of exactly the items whose id differs from the given one, in their
    order and with their fields, and writes that list, JSON-serialized, to
    local storage under the key [cartItems]. *)
Theorem removeFromCart_keeps_others_and_persists
    (id : string) (prevItems : list CartItem.t) (b : Browser.t) :
  exists (updatedItems : list CartItem.t) (b' : Browser.t),
    Navbar.removeFromCart id prevItems b = (Ok updatedItems, b') /\
    updatedItems = filter (fun item => CartItem.id item <> id) prevItems /\
    updatedItems `sublist_of` prevItems /\
    (forall item, item ∈ updatedItems <-> item ∈ prevItems /\ CartItem.id item <> id) /\
    localStorage b' =
      <["cartItems" := JSON.stringify (Codec.encode_array Codec.encode_CartItem updatedItems)]>
        (localStorage b) /\
    Codec.parse_array Codec.decode_CartItem
      (JSON.stringify (Codec.encode_array Codec.encode_CartItem updatedItems)) =
      Ok updatedItems.
Proof.
  rewrite removeFromCart_run. cbv zeta.
  eexists _, _. split; [reflexivity|]. split; [reflexivity|].
  split; [apply sublist_filter|].
  split; [intros item; rewrite list_elem_of_filter; tauto|].
  split; [reflexivity|].
  apply CodecFacts.parse_stringify_array, CodecFacts.decode_encode_CartItem.
Qed.

(** C8, at the input that refutes it: two entries share the id [t1]; the
    badge shows 3, removing the entry of quantity 1 removes both, and the
    badge drops to 0 rather than to 2. *)
Lemma badge_count_shared_id_counterexample :
  let item := CartItem.mk "t1" "Bath towel" (JSNumber.num 250) (JSNumber.num 1) "bath.png" in
  let cart := [item; CartItem.mk "t1" "Bath towel" (JSNumber.num 250) (JSNumber.num 2) "bath.png"] in
  item ∈ cart /\
  counts_exactly cart /\
  Navbar.cartItemsCount cart = 3 /\
  fst (Navbar.removeFromCart (CartItem.id item) cart (Browser.mk ∅ [])) = Ok [] /\
  Navbar.cartItemsCount [] <> Navbar.cartItemsCount cart - quantity_of item.
Proof.
  cbv zeta. split; [apply list_elem_of_here|].
  split; [vm_compute; discriminate|].
  split; [reflexivity|]. split; [reflexivity|]. discriminate.
Qed.

(** The badge of a cart whose quantities are [2 ^ 53 - 1] and [2]: the sum
    is not a double, the badge shows the double next to it, and removing
    the entry of quantity 2 lowers the badge by 1. *)
Example badge_count_rounds :
  let big := CartItem.mk "t1" "Bath towel" (JSNumber.num 250)
                         (JSNumber.num 9007199254740991) "bath.png" in
  let cart := [big; CartItem.mk "t2" "Hand towel" (JSNumber.num 90) (JSNumber.num 2) "hand.png"] in
  sum_of_quantities cart = 9007199254740993 /\
  Navbar.cartItemsCount cart = 9007199254740992 /\
  fst (Navbar.removeFromCart "t2" cart (Browser.mk ∅ [])) = Ok [big] /\
  Navbar.cartItemsCount [big] = Navbar.cartItemsCount cart - 1.
Proof. cbv zeta. repeat split; vm_compute; reflexivity. Qed.

(** C8, amended.  For every cart list on which the quantities add up
    without rounding, the badge count is the sum of the quantity fields of
    its items; removing by an id decreases the count by the sum of the
    quantities of all items that have this id, which is the quantity q of
    the item when it is the only entry with its id. *)
Theorem cartItemsCount_sum_and_removal (cart : list CartItem.t) (id : string) (b : Browser.t) :
  counts_exactly cart ->
  Navbar.cartItemsCount cart = sum_of_quantities cart /\
  exists (updatedItems : list CartItem.t) (b' : Browser.t),
    Navbar.removeFromCart id cart b = (Ok updatedItems, b') /\
    Navbar.cartItemsCount updatedItems =
      Navbar.cartItemsCount cart -
      sum_of_quantities (filter (fun item => CartItem.id item = id) cart) /\
    (forall item,
        filter (fun item => CartItem.id item = id) cart = [item] ->
        Navbar.cartItemsCount updatedItems =
          Navbar.cartItemsCount cart - quantity_of item).
Proof.
  intros Hexact. split; [now apply cartItemsCount_sum|].
  rewrite removeFromCart_run. cbv zeta. eexists _, _. split; [reflexivity|].
  assert (E : Navbar.cartItemsCount (filter (fun item => CartItem.id item <> id) cart) =
              Navbar.cartItemsCount cart -
              sum_of_quantities (filter (fun item => CartItem.id item = id) cart)).
  { rewrite <- (filter_bool_prop (fun item => negb (String.eqb (CartItem.id item) id)))
      by (intros x; apply string_eqb_neq).
    rewrite <- (filter_bool_prop (fun item => String.eqb (CartItem.id item) id)
                  (fun item => CartItem.id item = id))
      by (intros x; apply String.eqb_eq).
    rewrite (cartItemsCount_sum cart Hexact).
    rewrite cartItemsCount_sum by now apply counts_exactly_filter.
    unfold sum_of_quantities.
    rewrite (sum_split (fun item => String.eqb (CartItem.id item) id) quantity_of cart).
    lia. }
  split; [exact E|]. intros item Hitem. rewrite E, Hitem.
  unfold sum_of_quantities. simpl. lia.
Qed.

Lemma cartItemsCount_sum_and_removal_witness :
  let item := CartItem.mk "t1" "Bath towel" (JSNumber.num 250) (JSNumber.num 2) "bath.png" in
  let cart := [item; CartItem.mk "t2" "Hand towel" (JSNumber.num 90) (JSNumber.num 3) "hand.png"] in
  counts_exactly cart /\
  Navbar.cartItemsCount cart = 5 /\
  exists updatedItems,
    fst (Navbar.removeFromCart "t1" cart (Browser.mk ∅ [])) = Ok updatedItems /\
    Navbar.cartItemsCount updatedItems = 5 - 2.
Proof.
  cbv zeta.
  assert (Hexact : counts_exactly
            [CartItem.mk "t1" "Bath towel" (JSNumber.num 250) (JSNumber.num 2) "bath.png";
             CartItem.mk "t2" "Hand towel" (JSNumber.num 90) (JSNumber.num 3) "hand.png"])
    by (vm_compute; discriminate).
  destruct (cartItemsCount_sum_and_removal
              [CartItem.mk "t1" "Bath towel" (JSNumber.num 250) (JSNumber.num 2) "bath.png";
               CartItem.mk "t2" "Hand towel" (JSNumber.num 90) (JSNumber.num 3) "hand.png"]
              "t1" (Browser.mk ∅ []) Hexact)
    as (Hsum & updatedItems & b' & Hrun & _ & Hone).
  split; [exact Hexact|].
  split; [reflexivity|]. exists updatedItems. split; [now rewrite Hrun|].
  apply (Hone (CartItem.mk "t1" "Bath towel" (JSNumber.num 250) (JSNumber.num 2) "bath.png")). reflexivity.
Defined.

(** ** Orders *)

Lemma lookup_map {A B : Type} (f : A -> B) (l : list A) (i : nat) :
  List.map f l !! i = f <$> (l !! i).
Proof.
  revert i. induction l as [|x l IH]; intros [|i]; simpl; auto.
Qed.

(** One list after a change of status, position by position. *)
Lemma set_status_frame (orderId newStatus : string) (l : list Order.t) :
  length (List.map (AllOrders.set_status orderId newStatus) l) = length l /\
  (forall i order,
      l !! i = Some order ->
      exists order',
        List.map (AllOrders.set_status orderId newStatus) l !! i = Some order' /\
        Order.id order' = Order.id order /\
        Order.items order' = Order.items order /\
        Order.total order' = Order.total order /\
        Order.date order' = Order.date order /\
        (Order.id order = orderId -> Order.status order' = newStatus) /\
        (Order.id order <> orderId -> order' = order)).
Proof.
  split; [apply length_map|].
  intros i order Hi. rewrite lookup_map, Hi. simpl.
  eexists. split; [reflexivity|]. unfold AllOrders.set_status.
  destruct (String.eqb_spec (Order.id order) orderId) as [E|E]; simpl;
    repeat split; auto; congruence.
Qed.

(** C9.  For every order list, order id and new status, [updateOrderStatus]
    changes only the status field of the orders whose id is the given one,
    leaves every other order and the fields id, items, total and date of the
    matched orders as they were, in the order list and in the displayed
    list alike, and persists exactly the updated order list under the
    local-storage key [orders]. *)
Theorem updateOrderStatus_frame
    (orderId newStatus : string) (st : AllOrders.state) (b : Browser.t) :
  exists (st' : AllOrders.state) (b' : Browser.t),
    AllOrders.updateOrderStatus orderId newStatus st b = (Ok st', b') /\
    length (AllOrders.orders st') = length (AllOrders.orders st) /\
    (forall i order,
        AllOrders.orders st !! i = Some order ->
        exists order',
          AllOrders.orders st' !! i = Some order' /\
          Order.id order' = Order.id order /\
          Order.items order' = Order.items order /\
          Order.total order' = Order.total order /\
          Order.date order' = Order.date order /\
          (Order.id order = orderId -> Order.status order' = newStatus) /\
          (Order.id order <> orderId -> order' = order)) /\
    length (AllOrders.filteredOrders st') = length (AllOrders.filteredOrders st) /\
    (forall i order,
        AllOrders.filteredOrders st !! i = Some order ->
        exists order',
          AllOrders.filteredOrders st' !! i = Some order' /\
          Order.id order' = Order.id order /\
          Order.items order' = Order.items order /\
          Order.total order' = Order.total order /\
          Order.date order' = Order.date order /\
          (Order.id order = orderId -> Order.status order' = newStatus) /\
          (Order.id order <> orderId -> order' = order)) /\
    localStorage b' =
      <["orders" := JSON.stringify (Codec.encode_array Codec.encode_Order (AllOrders.orders st'))]>
        (localStorage b) /\
    trace b' =
      trace b ++
      [SetItem "orders"
         (JSON.stringify (Codec.encode_array Codec.encode_Order (AllOrders.orders st')))] /\
    (forall key, key <> "orders" -> localStorage b' !! key = localStorage b !! key) /\
    AllOrders.searchTerm st' = AllOrders.searchTerm st /\
    Codec.parse_array Codec.decode_Order
      (JSON.stringify (Codec.encode_array Codec.encode_Order (AllOrders.orders st'))) =
      Ok (AllOrders.orders st').
Proof.
  eexists _, _. split; [reflexivity|]. simpl.
  destruct (set_status_frame orderId newStatus (AllOrders.orders st)) as [Hlen Hall].
  destruct (set_status_frame orderId newStatus (AllOrders.filteredOrders st))
    as [Hlen' Hall'].
  split; [exact Hlen|]. split; [exact Hall|].
  split; [exact Hlen'|]. split; [exact Hall'|].
  split; [reflexivity|]. split; [reflexivity|]. split.
  - intros key Hkey. now rewrite lookup_insert_ne.
  - split; [reflexivity|].
    apply CodecFacts.parse_stringify_array, CodecFacts.decode_encode_Order.
Qed.

(** *** Searching *)

Module JSStringFacts.
Import JSString.

Lemma whitespace_only_cons c s :
  whitespace_only (String c s) <-> is_space c = true /\ whitespace_only s.
Proof.
  unfold whitespace_only. simpl. split.
  - intros H. inversion H; subst. auto.
  - intros [Hc Hs]. now constructor.
Qed.

Lemma whitespace_only_empty : whitespace_only EmptyString.
Proof. unfold whitespace_only. simpl. constructor. Qed.

Lemma trimStart_whitespace s : whitespace_only (trimStart s) <-> whitespace_only s.
Proof.
  induction s as [|c s IH]; simpl; [tauto|].
  destruct (is_space c) eqn:E; [|tauto].
  rewrite IH, whitespace_only_cons. tauto.
Qed.

Lemma trimEnd_empty s : trimEnd s = EmptyString <-> whitespace_only s.
Proof.
  induction s as [|c s IH]; simpl.
  - split; [intros _; apply whitespace_only_empty | reflexivity].
  - rewrite whitespace_only_cons, <- IH.
    destruct (trimEnd s); destruct (is_space c); split;
      intros; try tauto; try discriminate; intuition discriminate.
Qed.

Lemma trim_empty s : trim s = EmptyString <-> whitespace_only s.
Proof. unfold trim. now rewrite trimEnd_empty, trimStart_whitespace. Qed.

Lemma startsWith_prefix s t :
  startsWith s t = true <-> exists post, s = (t ++ post)%string.
Proof.
  revert s. induction t as [|b t IH]; intros s; simpl.
  - split; [intros _; exists s; reflexivity | reflexivity].
  - destruct s as [|a s]; simpl.
    + split; [discriminate|]. intros [post H]. discriminate.
    + rewrite andb_true_iff, Ascii.eqb_eq, IH. split.
      * intros [-> [post ->]]. eauto.
      * intros [post H]. injection H as -> ->. eauto.
Qed.

Lemma includes_contains s t : includes s t = true <-> contains s t.
Proof.
  unfold contains. induction s as [|c s IH]; simpl.
  - rewrite orb_false_r, startsWith_prefix. split.
    + intros [post H]. exists EmptyString, post. exact H.
    + intros (pre & post & H). destruct pre; [eauto|discriminate].
  - rewrite orb_true_iff, IH, startsWith_prefix. split.
    + intros [[post H]|(pre & post & H)].
      * exists EmptyString, post. exact H.
      * exists (String c pre), post. simpl. now rewrite H.
    + intros (pre & post & H). destruct pre as [|a pre]; simpl in H.
      * left. eauto.
      * right. injection H as -> ->. eauto.
Qed.

#[export] Instance contains_dec s t : Decision (contains s t).
Proof.
  destruct (includes s t) eqn:E.
  - left. now apply includes_contains.
  - right. intros H. apply includes_contains in H. congruence.
Defined.

End JSStringFacts.
Import JSStringFacts.

(** C10.  For every order list and search term, the search of AllOrders
    displays all orders when the term is empty or white space only, and
    otherwise exactly the orders whose lowercased id contains the
    lowercased, untrimmed term; the displayed list is a sublist of the full
    order list, which stays as it was. *)
Theorem handleSearch_displays_matching_orders (term : string) (st : AllOrders.state) :
  AllOrders.orders (AllOrders.handleSearch term st) = AllOrders.orders st /\
  AllOrders.searchTerm (AllOrders.handleSearch term st) = term /\
  (JSString.whitespace_only term ->
   AllOrders.filteredOrders (AllOrders.handleSearch term st) = AllOrders.orders st) /\
  (~ JSString.whitespace_only term ->
   AllOrders.filteredOrders (AllOrders.handleSearch term st) =
     filter
       (fun order =>
          JSString.contains (JSString.toLowerCase (Order.id order))
                            (JSString.toLowerCase term))
       (AllOrders.orders st)) /\
  AllOrders.filteredOrders (AllOrders.handleSearch term st) `sublist_of` AllOrders.orders st.
Proof.
  unfold AllOrders.handleSearch.
  destruct (String.eqb_spec (JSString.trim term) "") as [E|E]; simpl.
  - apply trim_empty in E. repeat split; try reflexivity; tauto.
  - assert (W : ~ JSString.whitespace_only term) by (now rewrite <- trim_empty).
    rewrite (filter_bool_prop _
               (fun order =>
                  JSString.contains (JSString.toLowerCase (Order.id order))
                                    (JSString.toLowerCase term)))
      by (intros x; apply includes_contains).
    repeat split; try reflexivity; try tauto. apply sublist_filter.
Qed.

(** ** Loading from local storage *)

(** C3.  Some malformed string stored under the key [orders] makes the
    loading step of AllOrders raise the parse error of [JSON.parse]: it is
    not caught, and no default value is used instead. *)
Theorem loadOrders_parse_error_uncaught :
  exists text : string,
    JSON.parse text = Throw SyntaxError /\
    forall (st : AllOrders.state) (storage : gmap string string) (tr : list access),
      fst (AllOrders.loadOrders st (Browser.mk (<["orders" := text]> storage) tr)) =
      Throw SyntaxError.
Proof.
  exists "not json"%string. split; [reflexivity|]. intros st storage tr.
  unfold AllOrders.loadOrders, Browser.bind, getItem. simpl.
  rewrite lookup_insert_eq. reflexivity.
Qed.

Lemma loadProfile_run (u : User.t) (st : UserProfile.state) (b : Browser.t) :
  fst (UserProfile.loadProfile true (Some u) st b) =
  let* allOrders :=
    Codec.parse_array Codec.decode_Order (or_else (localStorage b !! "orders") "[]") in
  let* allRequests :=
    Codec.parse_array Codec.decode_CustomRequest
      (or_else (localStorage b !! "customRequests") "[]") in
  Ok (UserProfile.mk allOrders
        (filter (fun request => CustomRequest.userId request = User.id u) allRequests)).
Proof.
  unfold UserProfile.loadProfile, Browser.bind, getItem, lift, ret. simpl.
  destruct (Codec.parse_array Codec.decode_Order _); simpl; try reflexivity.
  destruct (Codec.parse_array Codec.decode_CustomRequest _); simpl; try reflexivity.
  rewrite (filter_bool_prop _ (fun request => CustomRequest.userId request = User.id u))
    by (intros x; apply String.eqb_eq).
  reflexivity.
Qed.

Lemma parse_empty_array {A : Type} (dec : json -> option A) :
  Codec.parse_array dec "[]" = Ok [].
Proof. reflexivity. Qed.

(** C4.  When local storage holds no value for [orders], the load of
    AllOrders leaves [orders] and [filteredOrders] empty and the load of
    UserProfile leaves [orders] empty; when it holds no value for
    [customRequests], the load of UserProfile leaves [customRequests]
    empty. *)
Theorem missing_data_defaults_to_empty
    (storage : gmap string string) (tr : list access)
    (u : User.t) (st : UserProfile.state) :
  (storage !! "orders" = None ->
   fst (AllOrders.loadOrders AllOrders.initial (Browser.mk storage tr)) =
     Ok (AllOrders.mk [] [] "") /\
   fst (UserProfile.loadProfile true (Some u) st (Browser.mk storage tr)) =
     rmap (fun allRequests =>
             UserProfile.mk []
               (filter (fun request => CustomRequest.userId request = User.id u)
                       allRequests))
          (Codec.parse_array Codec.decode_CustomRequest
             (or_else (storage !! "customRequests") "[]"))) /\
  (storage !! "customRequests" = None ->
   fst (UserProfile.loadProfile true (Some u) st (Browser.mk storage tr)) =
     rmap (fun allOrders => UserProfile.mk allOrders [])
          (Codec.parse_array Codec.decode_Order (or_else (storage !! "orders") "[]"))) /\
  (storage !! "orders" = None -> storage !! "customRequests" = None ->
   fst (UserProfile.loadProfile true (Some u) st (Browser.mk storage tr)) =
     Ok (UserProfile.mk [] [])).
Proof.
  rewrite loadProfile_run. cbn [localStorage]. split; [|split].
  - intros Ho. split.
    + unfold AllOrders.loadOrders, Browser.bind, getItem. simpl. now rewrite Ho.
    + rewrite Ho. change (or_else None "[]") with "[]"%string.
      rewrite parse_empty_array. reflexivity.
  - intros Hr. rewrite Hr. change (or_else None "[]") with "[]"%string.
    rewrite parse_empty_array. unfold rmap.
    destruct (Codec.parse_array Codec.decode_Order _); reflexivity.
  - intros Ho Hr. rewrite Ho, Hr. reflexivity.
Qed.

Lemma missing_data_defaults_to_empty_witness :
  fst (AllOrders.loadOrders AllOrders.initial (Browser.mk ∅ [])) =
    Ok (AllOrders.mk [] [] "") /\
  fst (UserProfile.loadProfile true (Some (User.mk "u1" "Asha" "asha@example.com" "customer"))
         UserProfile.initial (Browser.mk ∅ [])) =
    Ok (UserProfile.mk [] []).
Proof.
  destruct (missing_data_defaults_to_empty ∅ []
              (User.mk "u1" "Asha" "asha@example.com" "customer") UserProfile.initial)
    as (Horders & _ & Hboth).
  split.
  - apply Horders. reflexivity.
  - apply Hboth; reflexivity.
Defined.

(** ** The profile page *)

(** C1, at the input that refutes it: one order is stored; the profile
    pages of two different users both show it, so under no assignment of
    owners does the page show only the orders of its user. *)
Lemma profile_orders_shared_counterexample :
  User.id Sample.asha <> User.id Sample.ravi /\
  fst (UserProfile.loadProfile true (Some Sample.asha) UserProfile.initial
         (Browser.mk Sample.orders_only [])) =
    Ok (UserProfile.mk [Sample.order] []) /\
  fst (UserProfile.loadProfile true (Some Sample.ravi) UserProfile.initial
         (Browser.mk Sample.orders_only [])) =
    Ok (UserProfile.mk [Sample.order] []) /\
  ~ exists owner, shows_only_own_orders owner.
Proof.
  assert (Ha : fst (UserProfile.loadProfile true (Some Sample.asha) UserProfile.initial
                      (Browser.mk Sample.orders_only [])) =
               Ok (UserProfile.mk [Sample.order] [])) by reflexivity.
  assert (Hr : fst (UserProfile.loadProfile true (Some Sample.ravi) UserProfile.initial
                      (Browser.mk Sample.orders_only [])) =
               Ok (UserProfile.mk [Sample.order] [])) by reflexivity.
  split; [discriminate|]. split; [exact Ha|]. split; [exact Hr|].
  intros [owner H].
  pose proof (H _ _ _ Ha Sample.order (list_elem_of_here _ _)) as H1.
  pose proof (H _ _ _ Hr Sample.order (list_elem_of_here _ _)) as H2.
  rewrite H1 in H2. discriminate.
Qed.

(** C1, amended.  For every authenticated user the custom design requests
    shown by the profile page are exactly the stored requests whose userId
    is the id of the logged-in user; the order history it shows is the
    whole stored order list, whoever the user is. *)
Theorem profile_shows_own_requests_and_all_orders
    (u : User.t) (st : UserProfile.state) (b : Browser.t)
    (allOrders : list Order.t) (allRequests : list CustomRequest.t) :
  or_else (localStorage b !! "orders") "[]" =
    Codec.stringify_array Codec.encode_Order allOrders ->
  or_else (localStorage b !! "customRequests") "[]" =
    Codec.stringify_array Codec.encode_CustomRequest allRequests ->
  exists st' : UserProfile.state,
    fst (UserProfile.loadProfile true (Some u) st b) = Ok st' /\
    UserProfile.orders st' = allOrders /\
    UserProfile.customRequests st' =
      filter (fun request => CustomRequest.userId request = User.id u) allRequests /\
    UserProfile.customRequests st' `sublist_of` allRequests /\
    (forall request,
        request ∈ UserProfile.customRequests st' <->
        request ∈ allRequests /\ CustomRequest.userId request = User.id u).
Proof.
  intros Ho Hr. rewrite loadProfile_run, Ho, Hr.
  rewrite (CodecFacts.parse_stringify_array _ _ _ CodecFacts.decode_encode_Order).
  rewrite (CodecFacts.parse_stringify_array _ _ _ CodecFacts.decode_encode_CustomRequest).
  eexists. split; [reflexivity|]. simpl.
  split; [reflexivity|]. split; [reflexivity|].
  split; [apply sublist_filter|].
  intros request. rewrite list_elem_of_filter. tauto.
Qed.

Lemma profile_shows_own_requests_and_all_orders_witness :
  exists st',
    fst (UserProfile.loadProfile true (Some Sample.asha) UserProfile.initial
           (Browser.mk Sample.orders_and_requests [])) = Ok st' /\
    UserProfile.orders st' = [Sample.order] /\
    UserProfile.customRequests st' = [Sample.request_of_asha].
Proof.
  destruct (profile_shows_own_requests_and_all_orders
              Sample.asha UserProfile.initial
              (Browser.mk Sample.orders_and_requests [])
              [Sample.order] [Sample.request_of_asha; Sample.request_of_ravi])
    as (st' & Hrun & Horders & Hrequests & _).
  - vm_compute. reflexivity.
  - vm_compute. reflexivity.
  - exists st'. split; [exact Hrun|]. split; [exact Horders|].
    rewrite Hrequests. reflexivity.
Defined.



Lemma well_shaped_key key value : well_shaped key value -> storage_key key.
Proof. unfold well_shaped, storage_key. tauto. Qed.


Lemma key_orders : storage_key "orders".
Proof. unfold storage_key. auto. Qed.

Lemma key_cartItems : storage_key "cartItems".
Proof. unfold storage_key. auto. Qed.

Lemma key_customRequests : storage_key "customRequests".
Proof. unfold storage_key. auto. Qed.

Lemma written_orders (l : list Order.t) :
  well_shaped "orders" (Codec.stringify_array Codec.encode_Order l).
Proof. right. left. split; [reflexivity|]. now exists l. Qed.

Lemma written_cartItems (l : list CartItem.t) :
  well_shaped "cartItems" (Codec.stringify_array Codec.encode_CartItem l).
Proof. left. split; [reflexivity|]. now exists l. Qed.

Lemma well_formed_read storage key :
  well_formed storage -> storage_key key -> access_ok (GetItem key (storage !! key)).
Proof.
  intros Hwf Hkey. simpl. destruct (storage !! key) as [value|] eqn:E; auto.
Qed.

Lemma well_formed_insert storage key value :
  well_formed storage -> well_shaped key value -> well_formed (<[key := value]> storage).
Proof.
  intros Hwf Hv k v Hk Hkey. destruct (decide (key = k)) as [->|Hne].
  - rewrite lookup_insert_eq in Hk. congruence.
  - rewrite lookup_insert_ne in Hk by done. auto.
Qed.

(** *** What the computations keep *)

Lemma keeps_ret {A : Type} (a : A) : keeps (ret a).
Proof. intros b. split; auto. Qed.

Lemma keeps_lift {A : Type} (r : result A) : keeps (lift r).
Proof. intros b. split; auto. Qed.


Lemma keeps_getItem key : storage_key key -> keeps (getItem key).
Proof.
  intros Hkey b. unfold getItem, keys_used, shapes_kept. simpl. split.
  - intros H. apply Forall_app. split; [exact H|]. now apply Forall_singleton.
  - intros [Hwf H]. split; [exact Hwf|]. apply Forall_app. split; [exact H|].
    apply Forall_singleton. now apply well_formed_read.
Qed.

Lemma keeps_setItem key value : well_shaped key value -> keeps (setItem key value).
Proof.
  intros Hv b. unfold setItem, keys_used, shapes_kept. simpl. split.
  - intros H. apply Forall_app. split; [exact H|].
    apply Forall_singleton. simpl. eapply well_shaped_key, Hv.
  - intros [Hwf H]. split; [now apply well_formed_insert|].
    apply Forall_app. split; [exact H|]. now apply Forall_singleton.
Qed.

Create HintDb storage.
#[local] Hint Resolve key_orders key_cartItems key_customRequests
  written_orders written_cartItems
  keeps_ret keeps_lift keeps_getItem keeps_setItem : storage.














(** ** The Navbar and the window *)

Section NavbarFacts.
Import Navbar.

Variable addItemToCart : NewItem.t -> list CartItem.t -> list CartItem.t.
Variable loadCartFromStorage : M (list CartItem.t).

Local Abbreviation step := (Navbar.step addItemToCart loadCartFromStorage).
Local Abbreviation reachable := (Navbar.reachable addItemToCart loadCartFromStorage).

Lemma attached_initial storage : attached (initial_world storage).
Proof. split; reflexivity. Qed.

Lemma within_inv {A : Type} (w : world) (m : M A) k w' :
  within w m k = Ok w' -> exists a b, m (browser w) = (Ok a, b) /\ w' = k a b.
Proof.
  unfold within. destruct (m (browser w)) as [[a|e|] b]; try discriminate.
  intros H. injection H as <-. eauto.
Qed.

Lemma attached_setCartItems w b f : attached w -> attached (setCartItems w b f).
Proof.
  unfold attached, setCartItems. destruct (component w); simpl; auto.
Qed.

Lemma attached_step e w w' : attached w -> step e w = Ok w' -> attached w'.
Proof.
  intros Hw Hstep. destruct e; simpl in Hstep.
  - destruct (component w) eqn:Ec; [discriminate|].
    apply within_inv in Hstep as (items & b & _ & ->). split; reflexivity.
  - destruct (component w) eqn:Ec; [|discriminate].
    injection Hstep as <-. split; reflexivity.
  - destruct (storage_listener w).
    + apply within_inv in Hstep as (items & b & _ & ->).
      now apply attached_setCartItems.
    + now injection Hstep as <-.
  - destruct (window_addToCart w) as [[]|]; [|discriminate].
    injection Hstep as <-. now apply attached_setCartItems.
  - destruct (component w) eqn:Ec; [|discriminate].
    apply within_inv in Hstep as (items & b & _ & ->).
    now apply attached_setCartItems.
  - destruct (component w) eqn:Ec; [|discriminate].
    injection Hstep as <-. unfold attached in *. rewrite Ec in Hw. exact Hw.
  - injection Hstep as <-. exact Hw.
Qed.

Lemma reachable_attached w : reachable w -> attached w.
Proof.
  induction 1 as [storage|e w w' _ IH Hstep];
    [apply attached_initial | eapply attached_step; eauto].
Qed.

(** C6.  While the Navbar is mounted, a global function [addToCart] is
    attached to the window object, and calling it with an item updates
    the cart state by applying [addItemToCart] to the item and the
    previous cart list; the mount attaches it, and on unmount it is
    removed from the window object. *)
Theorem addToCart_attached_while_mounted (w : world) :
  reachable w ->
  (forall st,
      component w = Some st ->
      window_addToCart w = Some addToCart_of_Navbar /\
      (forall item,
          step (CallAddToCart item) w =
          Ok (mkWorld (browser w) (window_addToCart w) (storage_listener w)
                      (Some (mk (isCartOpen st) (addItemToCart item (cartItems st)))))) /\
      (exists w',
          step Unmount w = Ok w' /\
          component w' = None /\
          window_addToCart w' = None /\
          forall item, step (CallAddToCart item) w' = Throw TypeError)) /\
  (component w = None ->
   window_addToCart w = None /\
   (forall item, step (CallAddToCart item) w = Throw TypeError) /\
   (forall items b,
       loadCartFromStorage (browser w) = (Ok items, b) ->
       step Mount w =
       Ok (mkWorld b (Some addToCart_of_Navbar) true (Some (mk false items))))).
Proof.
  intros Hw. apply reachable_attached in Hw. unfold attached in Hw. split.
  - intros st Hst. rewrite Hst in Hw. destruct Hw as [Hwin Hlis].
    split; [exact Hwin|]. split.
    + intros item. simpl. rewrite Hwin. unfold setCartItems.
      now rewrite Hst, Hwin.
    + eexists. simpl. rewrite Hst. split; [reflexivity|]. simpl. auto.
  - intros Hnone. rewrite Hnone in Hw. destruct Hw as [Hwin Hlis].
    split; [exact Hwin|]. split.
    + intros item. simpl. now rewrite Hwin.
    + intros items b Hload. simpl. rewrite Hnone. unfold within. now rewrite Hload.
Qed.

End NavbarFacts.

Lemma run_reachable events w :
  Navbar.reachable Sample.append_item CartUtils.loadCartFromStorage w ->
  Navbar.reachable Sample.append_item CartUtils.loadCartFromStorage (Sample.run events w).
Proof.
  revert w. induction events as [|e events IH]; intros w Hw; [exact Hw|].
  simpl. apply IH.
  destruct (Navbar.step Sample.append_item CartUtils.loadCartFromStorage e w) eqn:E;
    try exact Hw.
  eapply Navbar.reachable_step; eauto.
Qed.

Lemma addToCart_attached_while_mounted_witness :
  Navbar.window_addToCart Sample.mounted = Some Navbar.addToCart_of_Navbar /\
  Navbar.step Sample.append_item CartUtils.loadCartFromStorage
    (Navbar.CallAddToCart (Navbar.NewItem.mk "t1" "Bath towel" (JSNumber.num 250) None "bath.png"))
    Sample.mounted =
  Ok (Navbar.mkWorld (Navbar.browser Sample.mounted)
        (Some Navbar.addToCart_of_Navbar) true
        (Some (Navbar.mk false [CartItem.mk "t1" "Bath towel" (JSNumber.num 250) (JSNumber.num 1) "bath.png"]))).
Proof.
  destruct (addToCart_attached_while_mounted Sample.append_item
              CartUtils.loadCartFromStorage Sample.mounted) as [Hmounted _].
  - apply run_reachable, Navbar.reachable_initial.
  - destruct (Hmounted (Navbar.mk false []) eq_refl) as (Hwin & Hcall & _).
    split; [exact Hwin|]. rewrite Hcall. reflexivity.
Defined.

(** C7.  Whenever a 'storage' event fires while the Navbar is mounted, the
    cart state of the component is reloaded from local storage: after the
    event it is the cart stored under [cartItems]. *)
Theorem storage_event_reloads_cart
    (addItemToCart : Navbar.NewItem.t -> list CartItem.t -> list CartItem.t)
    (w : Navbar.world) (st : Navbar.state) (cart : list CartItem.t) :
  Navbar.reachable addItemToCart CartUtils.loadCartFromStorage w ->
  Navbar.component w = Some st ->
  holds_cart (localStorage (Navbar.browser w)) cart ->
  exists w',
    Navbar.step addItemToCart CartUtils.loadCartFromStorage Navbar.StorageEvent w = Ok w' /\
    Navbar.component w' = Some (Navbar.mk (Navbar.isCartOpen st) cart) /\
    localStorage (Navbar.browser w') = localStorage (Navbar.browser w) /\
    holds_cart (localStorage (Navbar.browser w')) cart /\
    Navbar.window_addToCart w' = Navbar.window_addToCart w /\
    Navbar.storage_listener w' = Navbar.storage_listener w.
Proof.
  intros Hw Hst Hcart. apply reachable_attached in Hw. unfold attached in Hw.
  rewrite Hst in Hw. destruct Hw as [_ Hlis].
  assert (Hload : exists b,
             CartUtils.loadCartFromStorage (Navbar.browser w) = (Ok cart, b) /\
             localStorage b = localStorage (Navbar.browser w)).
  { unfold CartUtils.loadCartFromStorage, Browser.bind, getItem, lift, ret.
    unfold holds_cart in Hcart. simpl.
    destruct (localStorage (Navbar.browser w) !! "cartItems") as [text|].
    - rewrite Hcart.
      rewrite (CodecFacts.parse_stringify_array _ _ _ CodecFacts.decode_encode_CartItem).
      eauto.
    - rewrite Hcart. eauto. }
  destruct Hload as (b & Hload & Hb).
  eexists. simpl. rewrite Hlis. unfold Navbar.within. rewrite Hload.
  split; [reflexivity|]. unfold Navbar.setCartItems. rewrite Hst. simpl.
  rewrite Hb. auto.
Qed.

Lemma storage_event_reloads_cart_witness :
  Navbar.component Sample.mounted_stale = Some (Navbar.mk false []) /\
  exists w',
    Navbar.step Sample.append_item CartUtils.loadCartFromStorage Navbar.StorageEvent
      Sample.mounted_stale = Ok w' /\
    Navbar.component w' = Some (Navbar.mk false [Sample.towel; Sample.hand_towel]).
Proof.
  split; [reflexivity|].
  destruct (storage_event_reloads_cart Sample.append_item Sample.mounted_stale
              (Navbar.mk false []) [Sample.towel; Sample.hand_towel])
    as (w' & Hstep & Hcomponent & _).
  - apply run_reachable, Navbar.reachable_initial.
  - reflexivity.
  - reflexivity.
  - exists w'. split; [exact Hstep | exact Hcomponent].
Defined.

(** * Further properties of the pages *)

(** ** Searching the orders *)

Lemma lower_char_idempotent c :
  JSString.lower_char (JSString.lower_char c) = JSString.lower_char c.
Proof. destruct c as [[] [] [] [] [] [] [] []]; reflexivity. Qed.

Lemma is_space_lower_char c :
  JSString.is_space (JSString.lower_char c) = JSString.is_space c.
Proof. destruct c as [[] [] [] [] [] [] [] []]; reflexivity. Qed.

Lemma toLowerCase_idempotent s :
  JSString.toLowerCase (JSString.toLowerCase s) = JSString.toLowerCase s.
Proof.
  induction s as [|c s IH]; simpl; [reflexivity|].
  now rewrite lower_char_idempotent, IH.
Qed.

Lemma whitespace_only_toLowerCase s :
  JSString.whitespace_only (JSString.toLowerCase s) <-> JSString.whitespace_only s.
Proof.
  induction s as [|c s IH]; simpl; [tauto|].
  rewrite !whitespace_only_cons, is_space_lower_char, IH. tauto.
Qed.

Lemma trim_blank_toLowerCase s :
  String.eqb (JSString.trim (JSString.toLowerCase s)) "" =
  String.eqb (JSString.trim s) "".
Proof.
  destruct (String.eqb_spec (JSString.trim (JSString.toLowerCase s)) "") as [E|E];
    destruct (String.eqb_spec (JSString.trim s) "") as [F|F]; try reflexivity;
    exfalso; rewrite trim_empty in E, F;
    rewrite whitespace_only_toLowerCase in E; tauto.
Qed.

(** X1.  The displayed list depends only on the full order list and on the
    latest search action: a search after a search, or after a cleared
    search, gives what it gives on its own, and clearing the search is
    searching for the empty term. *)
Theorem search_depends_on_latest_action (t1 t2 : string) (st : AllOrders.state) :
  AllOrders.handleSearch t2 (AllOrders.handleSearch t1 st) = AllOrders.handleSearch t2 st /\
  AllOrders.handleSearch t2 (AllOrders.clearSearch st) = AllOrders.handleSearch t2 st /\
  AllOrders.clearSearch (AllOrders.handleSearch t1 st) = AllOrders.clearSearch st /\
  AllOrders.clearSearch st = AllOrders.handleSearch "" st.
Proof.
  unfold AllOrders.handleSearch, AllOrders.clearSearch.
  destruct (String.eqb (JSString.trim t1) ""), (String.eqb (JSString.trim t2) "");
    repeat split; reflexivity.
Qed.

(** X2.  The search ignores the case of the letters of the term: a term
    and its lower-case form display the same orders. *)
Theorem search_ignores_case_of_term (term : string) (st : AllOrders.state) :
  AllOrders.filteredOrders (AllOrders.handleSearch (JSString.toLowerCase term) st) =
  AllOrders.filteredOrders (AllOrders.handleSearch term st).
Proof.
  unfold AllOrders.handleSearch.
  rewrite trim_blank_toLowerCase, toLowerCase_idempotent.
  destruct (String.eqb (JSString.trim term) ""); reflexivity.
Qed.

(** ** Changing the status of orders *)

Lemma set_status_id orderId newStatus order :
  Order.id (AllOrders.set_status orderId newStatus order) = Order.id order.
Proof.
  unfold AllOrders.set_status. destruct (String.eqb (Order.id order) orderId); reflexivity.
Qed.

Lemma set_status_twice orderId s1 s2 order :
  AllOrders.set_status orderId s2 (AllOrders.set_status orderId s1 order) =
  AllOrders.set_status orderId s2 order.
Proof.
  unfold AllOrders.set_status.
  destruct (String.eqb (Order.id order) orderId) eqn:E; simpl; rewrite E; reflexivity.
Qed.

Lemma set_status_swap id1 s1 id2 s2 order :
  id1 <> id2 ->
  AllOrders.set_status id1 s1 (AllOrders.set_status id2 s2 order) =
  AllOrders.set_status id2 s2 (AllOrders.set_status id1 s1 order).
Proof.
  intros Hne. unfold AllOrders.set_status.
  destruct (String.eqb (Order.id order) id1) eqn:E1,
           (String.eqb (Order.id order) id2) eqn:E2;
    simpl; rewrite ?E1, ?E2; try reflexivity.
  apply String.eqb_eq in E1, E2. congruence.
Qed.

Lemma updateOrderStatus_run orderId newStatus st b :
  AllOrders.updateOrderStatus orderId newStatus st b =
  let updatedOrders :=
    List.map (AllOrders.set_status orderId newStatus) (AllOrders.orders st) in
  let written := Codec.stringify_array Codec.encode_Order updatedOrders in
  (Ok (AllOrders.mk updatedOrders
         (List.map (AllOrders.set_status orderId newStatus) (AllOrders.filteredOrders st))
         (AllOrders.searchTerm st)),
   Browser.mk (<["orders" := written]> (localStorage b))
              (trace b ++ [SetItem "orders" written])).
Proof. reflexivity. Qed.

(** X3.  The last status set for an id wins: setting a status and then
    another for the same id leaves the page and the storage as setting the
    second alone does; setting the same status twice is setting it once. *)
Theorem updateOrderStatus_last_wins
    (orderId s1 s2 : string) (st : AllOrders.state) (b : Browser.t) :
  exists st1 b1 st2 b2 st2' b2',
    AllOrders.updateOrderStatus orderId s1 st b = (Ok st1, b1) /\
    AllOrders.updateOrderStatus orderId s2 st1 b1 = (Ok st2, b2) /\
    AllOrders.updateOrderStatus orderId s2 st b = (Ok st2', b2') /\
    st2 = st2' /\ localStorage b2 = localStorage b2'.
Proof.
  rewrite !updateOrderStatus_run. cbv zeta.
  eexists _, _, _, _, _, _. split; [reflexivity|].
  rewrite updateOrderStatus_run. cbv zeta. split; [reflexivity|].
  split; [reflexivity|]. simpl. rewrite !List.map_map.
  rewrite !(List.map_ext _ _ (set_status_twice orderId s1 s2)).
  split; [reflexivity|]. apply insert_insert_eq.
Qed.

(** X4.  Status changes of two different ids commute: the page and the
    storage end the same in either order. *)
Theorem updateOrderStatus_commute
    (id1 s1 id2 s2 : string) (st : AllOrders.state) (b : Browser.t) :
  id1 <> id2 ->
  exists stA bA stB bB,
    (let! st1 := AllOrders.updateOrderStatus id1 s1 st in
     AllOrders.updateOrderStatus id2 s2 st1) b = (Ok stA, bA) /\
    (let! st2 := AllOrders.updateOrderStatus id2 s2 st in
     AllOrders.updateOrderStatus id1 s1 st2) b = (Ok stB, bB) /\
    stA = stB /\ localStorage bA = localStorage bB.
Proof.
  intros Hne. unfold Browser.bind. rewrite !updateOrderStatus_run.
  cbv beta iota zeta. rewrite !updateOrderStatus_run. cbv beta iota zeta.
  eexists _, _, _, _. split; [reflexivity|]. split; [reflexivity|].
  simpl. rewrite !List.map_map.
  rewrite !(List.map_ext _ _ (fun o => set_status_swap id2 s2 id1 s1 o (not_eq_sym Hne))).
  split; [reflexivity|]. now rewrite !insert_insert_eq.
Qed.

Lemma updateOrderStatus_commute_witness :
  exists st' b',
    (let! st1 := AllOrders.updateOrderStatus "ORD-1001" "Shipped"
                   (AllOrders.mk [Sample.order] [Sample.order] "") in
     AllOrders.updateOrderStatus "ORD-2002" "Cancelled" st1) (Browser.mk ∅ []) =
      (Ok st', b') /\
    Order.status <$> AllOrders.orders st' = ["Shipped"%string].
Proof.
  destruct (updateOrderStatus_commute "ORD-1001" "Shipped" "ORD-2002" "Cancelled"
              (AllOrders.mk [Sample.order] [Sample.order] "") (Browser.mk ∅ []))
    as (stA & bA & stB & bB & HA & HB & Hst & Hls).
  - discriminate.
  - exists stA, bA. split; [exact HA|].
    vm_compute in HA. injection HA as <- _. reflexivity.
Defined.

(** ** The orders page over time *)

Lemma filter_map_swap {A B : Type} (p : B -> bool) (f : A -> B) (l : list A) :
  List.filter p (List.map f l) = List.map f (List.filter (fun x => p (f x)) l).
Proof.
  induction l as [|x l IH]; simpl; [reflexivity|].
  destruct (p (f x)); simpl; now rewrite IH.
Qed.

Lemma handleSearch_filtered term st :
  AllOrders.filteredOrders (AllOrders.handleSearch term st) =
  if String.eqb (JSString.trim term) "" then AllOrders.orders st
  else List.filter
         (fun order =>
            JSString.includes (JSString.toLowerCase (Order.id order))
                              (JSString.toLowerCase term))
         (AllOrders.orders st).
Proof.
  unfold AllOrders.handleSearch.
  destruct (String.eqb (JSString.trim term) ""); reflexivity.
Qed.

Lemma search_consistent_sublist st :
  search_consistent st -> AllOrders.filteredOrders st `sublist_of` AllOrders.orders st.
Proof.
  unfold search_consistent. rewrite handleSearch_filtered. intros ->.
  destruct (String.eqb (JSString.trim (AllOrders.searchTerm st)) ""); [reflexivity|].
  rewrite (filter_bool_prop _ (fun order =>
             JSString.includes (JSString.toLowerCase (Order.id order))
               (JSString.toLowerCase (AllOrders.searchTerm st)) = true))
    by tauto.
  apply sublist_filter.
Qed.

Lemma handle_keeps_search_consistent e st b :
  search_consistent st ->
  exists st' b',
    AllOrdersPage.handle e st b = (Ok st', b') /\
    search_consistent st' /\
    List.map Order.id (AllOrders.orders st') = List.map Order.id (AllOrders.orders st).
Proof.
  intros Hst. destruct e as [term|orderId newStatus|]; simpl.
  - eexists _, _. split; [reflexivity|]. split.
    + unfold search_consistent. rewrite !handleSearch_filtered.
      unfold AllOrders.handleSearch.
      destruct (String.eqb (JSString.trim term) "") eqn:E; simpl; now rewrite E.
    + unfold AllOrders.handleSearch.
      destruct (String.eqb (JSString.trim term) ""); reflexivity.
  - rewrite updateOrderStatus_run. cbv zeta. eexists _, _. split; [reflexivity|].
    split.
    + unfold search_consistent in *. rewrite handleSearch_filtered in *. simpl.
      rewrite Hst.
      destruct (String.eqb (JSString.trim (AllOrders.searchTerm st)) "");
        [reflexivity|].
      rewrite filter_map_swap. f_equal. apply List.filter_ext.
      intros order. now rewrite set_status_id.
    + simpl. rewrite List.map_map. apply List.map_ext. intros order.
      apply set_status_id.
  - eexists _, _. split; [reflexivity|]. split; reflexivity.
Qed.

Lemma run_keeps_search_consistent events st b :
  search_consistent st ->
  exists st' b',
    AllOrdersPage.run events st b = (Ok st', b') /\
    search_consistent st' /\
    List.map Order.id (AllOrders.orders st') = List.map Order.id (AllOrders.orders st).
Proof.
  revert st b. induction events as [|e events IH]; intros st b Hst; simpl.
  - eexists _, _. split; [reflexivity|]. auto.
  - destruct (handle_keeps_search_consistent e st b Hst) as (st1 & b1 & H1 & Hc1 & Hid1).
    destruct (IH st1 b1 Hc1) as (st2 & b2 & H2 & Hc2 & Hid2).
    exists st2, b2. unfold Browser.bind. rewrite H1. split; [exact H2|].
    split; [exact Hc2|]. congruence.
Qed.

Lemma loadOrders_search_consistent b st0 b0 :
  AllOrders.loadOrders AllOrders.initial b = (Ok st0, b0) -> search_consistent st0.
Proof.
  unfold AllOrders.loadOrders, Browser.bind, getItem, lift, ret. simpl.
  destruct (truthy (localStorage b !! "orders")) as [text|].
  - destruct (Codec.parse_array Codec.decode_Order text); try discriminate.
    intros H. injection H as <- _. reflexivity.
  - intros H. injection H as <- _. reflexivity.
Qed.

(** X5.  Once the orders are loaded, whatever the administrator does on
    the page (searches, status changes, cleared searches), the displayed
    orders are the result of the search for the current term on the
    current orders, always a sublist of them, and the ids of the orders
    stay as loaded. *)
Theorem page_keeps_search_consistent
    (events : list AllOrdersPage.event) (b : Browser.t)
    (st0 : AllOrders.state) (b0 : Browser.t) :
  AllOrders.loadOrders AllOrders.initial b = (Ok st0, b0) ->
  exists st b',
    AllOrdersPage.open_page events b = (Ok st, b') /\
    search_consistent st /\
    AllOrders.filteredOrders st `sublist_of` AllOrders.orders st /\
    List.map Order.id (AllOrders.orders st) = List.map Order.id (AllOrders.orders st0).
Proof.
  intros Hload.
  destruct (run_keeps_search_consistent events st0 b0
              (loadOrders_search_consistent _ _ _ Hload)) as (st & b' & Hrun & Hc & Hid).
  exists st, b'. unfold AllOrdersPage.open_page, Browser.bind. rewrite Hload.
  split; [exact Hrun|]. split; [exact Hc|].
  split; [now apply search_consistent_sublist | exact Hid].
Qed.

Lemma page_keeps_search_consistent_witness :
  exists st b',
    AllOrdersPage.open_page
      [AllOrdersPage.Search "ord-1"; AllOrdersPage.ChangeStatus "ORD-1001" "Shipped"]
      (Browser.mk Sample.orders_only []) = (Ok st, b') /\
    search_consistent st /\
    List.map Order.id (AllOrders.orders st) = ["ORD-1001"%string].
Proof.
  destruct (page_keeps_search_consistent
              [AllOrdersPage.Search "ord-1"; AllOrdersPage.ChangeStatus "ORD-1001" "Shipped"]
              (Browser.mk Sample.orders_only [])
              (AllOrders.mk [Sample.order] [Sample.order] "")
              (Browser.mk Sample.orders_only
                 [GetItem "orders" (Sample.orders_only !! "orders")]))
    as (st & b' & Hrun & Hc & _ & Hid).
  - vm_compute. reflexivity.
  - exists st, b'. split; [exact Hrun|]. split; [exact Hc|]. exact Hid.
Defined.

Lemma stringify_array_not_empty {A : Type} (enc : A -> json) (l : list A) :
  truthy (Some (Codec.stringify_array enc l)) = Some (Codec.stringify_array enc l).
Proof. reflexivity. Qed.

Lemma holds_orders_empty (l : list Order.t) :
  "[]"%string = Codec.stringify_array Codec.encode_Order l -> l = [].
Proof.
  intros H.
  pose proof (CodecFacts.parse_stringify_array Codec.encode_Order Codec.decode_Order l
                CodecFacts.decode_encode_Order) as Hl.
  rewrite <- H in Hl. rewrite parse_empty_array in Hl. congruence.
Qed.

Lemma loadOrders_held b l :
  holds_orders (localStorage b) l ->
  AllOrders.loadOrders AllOrders.initial b =
  (Ok (AllOrders.mk l l ""),
   Browser.mk (localStorage b) (trace b ++ [GetItem "orders" (localStorage b !! "orders")])).
Proof.
  unfold holds_orders, or_else, AllOrders.loadOrders, Browser.bind, getItem, lift, ret.
  simpl. destruct (truthy (localStorage b !! "orders")) as [text|].
  - intros ->.
    now rewrite (CodecFacts.parse_stringify_array _ _ _ CodecFacts.decode_encode_Order).
  - intros H. apply holds_orders_empty in H as ->. reflexivity.
Qed.

Lemma handle_keeps_orders_held e st b :
  holds_orders (localStorage b) (AllOrders.orders st) ->
  exists st' b',
    AllOrdersPage.handle e st b = (Ok st', b') /\
    holds_orders (localStorage b') (AllOrders.orders st').
Proof.
  intros H. destruct e as [term|orderId newStatus|]; simpl.
  - eexists _, _. split; [reflexivity|]. simpl.
    unfold AllOrders.handleSearch.
    destruct (String.eqb (JSString.trim term) ""); exact H.
  - rewrite updateOrderStatus_run. cbv zeta. eexists _, _. split; [reflexivity|].
    unfold holds_orders, or_else. simpl. rewrite lookup_insert_eq.
    now rewrite stringify_array_not_empty.
  - eexists _, _. split; [reflexivity|]. exact H.
Qed.

(** X6.  The status changes survive a reload: when the storage holds an
    order list (or nothing), after any sequence of searches and status
    changes the storage holds exactly the orders of the page, so loading
    the page again shows them with their new statuses. *)
Theorem status_changes_survive_reload
    (events : list AllOrdersPage.event) (b : Browser.t) (l : list Order.t) :
  holds_orders (localStorage b) l ->
  exists st b',
    AllOrdersPage.open_page events b = (Ok st, b') /\
    holds_orders (localStorage b') (AllOrders.orders st) /\
    fst (AllOrders.loadOrders AllOrders.initial b') =
      Ok (AllOrders.mk (AllOrders.orders st) (AllOrders.orders st) "").
Proof.
  intros Hl. unfold AllOrdersPage.open_page, Browser.bind.
  rewrite (loadOrders_held b l Hl).
  assert (Hrun : forall events st b1,
             holds_orders (localStorage b1) (AllOrders.orders st) ->
             exists st' b',
               AllOrdersPage.run events st b1 = (Ok st', b') /\
               holds_orders (localStorage b') (AllOrders.orders st')).
  { clear. induction events as [|e events IH]; intros st b1 H; simpl.
    - eexists _, _. split; [reflexivity|exact H].
    - destruct (handle_keeps_orders_held e st b1 H) as (st1 & b2 & H1 & Hh).
      destruct (IH st1 b2 Hh) as (st2 & b3 & H2 & Hh2).
      exists st2, b3. unfold Browser.bind. rewrite H1. auto. }
  destruct (Hrun events (AllOrders.mk l l "")
              (Browser.mk (localStorage b)
                 (trace b ++ [GetItem "orders" (localStorage b !! "orders")])) Hl)
    as (st & b' & Hst & Hh).
  exists st, b'. split; [exact Hst|]. split; [exact Hh|].
  now rewrite (loadOrders_held b' _ Hh).
Qed.

Lemma status_changes_survive_reload_witness :
  exists st b',
    AllOrdersPage.open_page [AllOrdersPage.ChangeStatus "ORD-1001" "Delivered"]
      (Browser.mk Sample.orders_only []) = (Ok st, b') /\
    fst (AllOrders.loadOrders AllOrders.initial b') =
      Ok (AllOrders.mk (AllOrders.orders st) (AllOrders.orders st) "") /\
    Order.status <$> AllOrders.orders st = ["Delivered"%string].
Proof.
  destruct (status_changes_survive_reload
              [AllOrdersPage.ChangeStatus "ORD-1001" "Delivered"]
              (Browser.mk Sample.orders_only []) [Sample.order])
    as (st & b' & Hrun & _ & Hreload).
  - reflexivity.
  - exists st, b'. split; [exact Hrun|]. split; [exact Hreload|].
    vm_compute in Hrun. injection Hrun as <- _. reflexivity.
Defined.

(** X7.  On a page in a state it can reach, the notice [No orders found]
    comes without the [Clear search] button exactly when there is no order
    at all and no search term; a table shows the displayed orders, of
    which there is at least one; and after [Clear search] the page shows
    all the orders, or the notice without the button when there is none. *)
Theorem orders_view_of_consistent_page (st : AllOrders.state) :
  search_consistent st ->
  (AllOrdersPage.render st = AllOrdersPage.NoOrdersFound false <->
   AllOrders.orders st = [] /\ AllOrders.searchTerm st = ""%string) /\
  (forall rows,
      AllOrdersPage.render st = AllOrdersPage.Table rows ->
      rows = AllOrders.filteredOrders st /\ rows <> [] /\
      rows `sublist_of` AllOrders.orders st) /\
  AllOrdersPage.render (AllOrders.clearSearch st) =
    match AllOrders.orders st with
    | [] => AllOrdersPage.NoOrdersFound false
    | _ :: _ => AllOrdersPage.Table (AllOrders.orders st)
    end.
Proof.
  intros Hst. pose proof (search_consistent_sublist st Hst) as Hsub.
  unfold search_consistent in Hst. rewrite handleSearch_filtered in Hst.
  unfold AllOrdersPage.render. split; [|split].
  - destruct (AllOrders.filteredOrders st) as [|o rows] eqn:Ef; simpl.
    + destruct (String.eqb_spec (AllOrders.searchTerm st) "") as [Et|Et]; simpl.
      * rewrite Et in Hst. simpl in Hst. split; [auto|reflexivity].
      * split; [discriminate|tauto].
    + split; [discriminate|]. intros [Ho Et]. rewrite Ho, Et in Hst. discriminate.
  - intros rows. destruct (AllOrders.filteredOrders st) as [|o rows'] eqn:Ef; simpl;
      [discriminate|].
    intros H. injection H as <-. split; [reflexivity|]. split; [discriminate|exact Hsub].
  - simpl. destruct (AllOrders.orders st); reflexivity.
Qed.

Lemma orders_view_of_consistent_page_witness :
  AllOrdersPage.render AllOrders.initial = AllOrdersPage.NoOrdersFound false.
Proof.
  destruct (orders_view_of_consistent_page AllOrders.initial) as [[_ H] _].
  - reflexivity.
  - apply H. split; reflexivity.
Defined.

(** ** The colours of the status badges *)

Lemma case_variant_toLowerCase s t :
  case_variant s t -> JSString.toLowerCase s = JSString.toLowerCase t.
Proof.
  unfold case_variant. revert t.
  induction s as [|a s IH]; intros [|b t] H; simpl in *; inversion H; subst;
    [reflexivity|].
  f_equal; auto.
Qed.

Lemma case_variant_of_toLowerCase s : case_variant s (JSString.toLowerCase s).
Proof.
  unfold case_variant. induction s as [|a s IH]; simpl; constructor; auto.
  now rewrite lower_char_idempotent.
Qed.

(** X8.  The colour of a status badge does not depend on the case of the
    letters of the status: two statuses that differ only in case get the
    same colour, as a status and its lower-case form do. *)
Theorem getStatusColor_ignores_case (s t : string) :
  case_variant s t ->
  UserProfilePage.getStatusColor s = UserProfilePage.getStatusColor t /\
  UserProfilePage.getStatusColor (JSString.toLowerCase s) =
    UserProfilePage.getStatusColor s.
Proof.
  intros H. unfold UserProfilePage.getStatusColor.
  rewrite (case_variant_toLowerCase s t H), toLowerCase_idempotent. auto.
Qed.

Lemma getStatusColor_ignores_case_witness :
  UserProfilePage.getStatusColor "SHIPPED" = UserProfilePage.getStatusColor "Shipped".
Proof.
  apply (getStatusColor_ignores_case "SHIPPED" "Shipped").
  repeat constructor.
Defined.

(** X9.  The four statuses that the orders page can set get four different
    badge colours on the profile page, none of them the default grey, in
    whatever case they are written. *)
Theorem status_options_have_distinct_colours (s t s' t' : string) :
  s ∈ AllOrdersPage.statusOptions -> t ∈ AllOrdersPage.statusOptions ->
  case_variant s s' -> case_variant t t' ->
  (UserProfilePage.getStatusColor s' = UserProfilePage.getStatusColor t' <-> s = t) /\
  UserProfilePage.getStatusColor s' <> "bg-gray-100 text-gray-800"%string.
Proof.
  intros Hs Ht Hs' Ht'.
  assert (Es : UserProfilePage.getStatusColor s' = UserProfilePage.getStatusColor s).
  { unfold UserProfilePage.getStatusColor.
    now rewrite (case_variant_toLowerCase s s' Hs'). }
  assert (Et : UserProfilePage.getStatusColor t' = UserProfilePage.getStatusColor t).
  { unfold UserProfilePage.getStatusColor.
    now rewrite (case_variant_toLowerCase t t' Ht'). }
  rewrite Es, Et. clear Es Et Hs' Ht'.
  unfold AllOrdersPage.statusOptions in Hs, Ht.
  repeat (apply elem_of_cons in Hs as [->|Hs]);
    try (now apply elem_of_nil in Hs);
    (split; [|discriminate]);
    repeat (apply elem_of_cons in Ht as [->|Ht]);
    try (now apply elem_of_nil in Ht);
    split; intros H; try reflexivity; try discriminate H.
Qed.

Lemma status_options_have_distinct_colours_witness :
  UserProfilePage.getStatusColor "shipped" <> UserProfilePage.getStatusColor "DELIVERED".
Proof.
  destruct (status_options_have_distinct_colours
              "Shipped" "Delivered" "shipped" "DELIVERED") as [[H _] _].
  - unfold AllOrdersPage.statusOptions. apply list_elem_of_further, list_elem_of_here.
  - unfold AllOrdersPage.statusOptions.
    apply list_elem_of_further, list_elem_of_further, list_elem_of_here.
  - repeat constructor.
  - repeat constructor.
  - intros E. apply H in E. discriminate E.
Defined.

(** ** Loading never writes *)

(** X10.  The two load effects only read: whatever they find and whether
    they return or throw, the storage is left as it was and every access
    they make is a [getItem]; the profile page of a visitor who is not
    logged in makes no access at all and keeps its state. *)
Theorem loads_are_read_only
    (st : AllOrders.state) (isAuthenticated : bool) (user : option User.t)
    (pst : UserProfile.state) (b : Browser.t) :
  (localStorage (snd (AllOrders.loadOrders st b)) = localStorage b /\
   trace (snd (AllOrders.loadOrders st b)) =
     trace b ++ [GetItem "orders" (localStorage b !! "orders")]) /\
  (localStorage (snd (UserProfile.loadProfile isAuthenticated user pst b)) =
     localStorage b /\
   exists reads,
     trace (snd (UserProfile.loadProfile isAuthenticated user pst b)) = trace b ++ reads /\
     Forall is_read reads) /\
  (isAuthenticated = false \/ user = None ->
   UserProfile.loadProfile isAuthenticated user pst b = (Ok pst, b)).
Proof.
  split; [|split].
  - unfold AllOrders.loadOrders, Browser.bind, getItem, lift, ret. simpl.
    destruct (truthy (localStorage b !! "orders")) as [text|]; [|auto].
    destruct (Codec.parse_array Codec.decode_Order text); auto.
  - unfold UserProfile.loadProfile, Browser.bind, getItem, lift, ret.
    destruct isAuthenticated, user as [u|]; simpl;
      try (split; [reflexivity|]; exists []; rewrite app_nil_r; split;
           [reflexivity|constructor]).
    destruct (Codec.parse_array Codec.decode_Order _); simpl;
      try (split; [reflexivity|]; eexists; split; [reflexivity|];
           repeat constructor).
    destruct (Codec.parse_array Codec.decode_CustomRequest _); simpl;
      (split; [reflexivity|]; eexists; split;
       [rewrite <- app_assoc; reflexivity | repeat constructor]).
  - intros [-> | ->]; [reflexivity|]. destruct isAuthenticated; reflexivity.
Qed.

Lemma loads_are_read_only_witness :
  UserProfile.loadProfile false (Some Sample.asha) UserProfile.initial
    (Browser.mk Sample.orders_and_requests []) =
  (Ok UserProfile.initial, Browser.mk Sample.orders_and_requests []).
Proof.
  apply (loads_are_read_only AllOrders.initial false (Some Sample.asha)
           UserProfile.initial (Browser.mk Sample.orders_and_requests [])).
  left. reflexivity.
Defined.

(** ** The cart drawer *)

Lemma lineAmount_exact item :
  Z.abs (amount_of item) <= JSNumber.max_safe -> CartModal.lineAmount item = amount_of item.
Proof. apply JSNumberFacts.mul_exact. Qed.

Lemma subtotal_lines cart :
  Navbar.subtotal cart = fold_left JSNumber.add (CartModal.lineAmount <$> cart) 0.
Proof. unfold Navbar.subtotal. now rewrite fold_left_fmap. Qed.

Lemma subtotal_sum cart :
  adds_up_exactly cart -> Navbar.subtotal cart = foldr Z.add 0 (amount_of <$> cart).
Proof.
  intros H. unfold Navbar.subtotal.
  rewrite (fold_add_exact CartModal.lineAmount amount_of)
    by (auto using lineAmount_exact; simpl; exact H).
  lia.
Qed.

(** The subtotal is a finite number on every cart. *)
Lemma subtotal_finite cart : Z.abs (Navbar.subtotal cart) <= 2 ^ 160.
Proof.
  unfold Navbar.subtotal.
  assert (H : forall sum, Z.abs sum <= 2 ^ 160 ->
            Z.abs (fold_left
                     (fun sum item =>
                        JSNumber.add sum
                          (JSNumber.mul (JSNumber.value (CartItem.price item))
                                        (JSNumber.value (CartItem.quantity item))))
                     cart sum) <= 2 ^ 160).
  { induction cart as [|item cart IH]; intros sum Hsum; [exact Hsum|].
    apply IH. apply (JSNumberFacts.add_bounded _ _ 160 106); try lia.
    apply JSNumberFacts.mul_bounded. }
  apply H. rewrite Z.abs_0. apply Z.pow_nonneg. lia.
Qed.


Lemma lineAmount_sum cart :
  adds_up_exactly cart ->
  foldr Z.add 0 (CartModal.lineAmount <$> cart) = foldr Z.add 0 (amount_of <$> cart).
Proof.
  intros H. f_equal. apply list_fmap_ext. intros i item Hitem.
  apply lineAmount_exact. apply list_elem_of_lookup_2 in Hitem.
  pose proof (magnitude_member amount_of cart item Hitem).
  unfold adds_up_exactly in H. lia.
Qed.

Lemma lines_entries (cart : list CartItem.t) :
  fst <$> List.map (fun item => (item, CartModal.lineAmount item)) cart = cart.
Proof. induction cart as [|x cart IH]; [reflexivity|]. simpl. f_equal. exact IH. Qed.

Lemma lines_amounts (cart : list CartItem.t) :
  snd <$> List.map (fun item => (item, CartModal.lineAmount item)) cart =
  CartModal.lineAmount <$> cart.
Proof. induction cart as [|x cart IH]; [reflexivity|]. simpl. f_equal. exact IH. Qed.

(** X11.  The open drawer shows either the empty-cart message and no
    footer, exactly when the cart is empty, or one line for each entry of
    the cart, in order, with the amount price times quantity as a double,
    and a footer whose subtotal is the sum in doubles, from the first line
    to the last, of the amounts on the lines; the closed drawer shows
    nothing.  When the products of the prices and the quantities add up
    without rounding, the amounts are these products and the subtotal is
    their sum. *)
Theorem drawer_lines_and_subtotal (cartItems : list CartItem.t) :
  CartModal.render false cartItems = None /\
  exists p,
    CartModal.render true cartItems = Some p /\
    match CartModal.area p with
    | CartModal.EmptyMessage => cartItems = [] /\ CartModal.footer p = None
    | CartModal.ItemList lines =>
        cartItems <> [] /\
        fst <$> lines = cartItems /\
        Forall (fun line =>
                  snd line =
                  JSNumber.mul (JSNumber.value (CartItem.price (fst line)))
                               (JSNumber.value (CartItem.quantity (fst line))))
               lines /\
        CartModal.footer p = Some (fold_left JSNumber.add (snd <$> lines) 0) /\
        (adds_up_exactly cartItems ->
         Forall (fun line => snd line = amount_of (fst line)) lines /\
         CartModal.footer p = Some (foldr Z.add 0 (snd <$> lines)))
    end.
Proof.
  split; [reflexivity|]. eexists. split; [reflexivity|].
  destruct cartItems as [|item cart]; [simpl; auto|].
  cbn [CartModal.area CartModal.footer length Nat.eqb Nat.ltb Nat.leb].
  split; [discriminate|]. split; [apply lines_entries|]. split; [|split].
  - apply Forall_forall. intros line Hline.
    apply list_elem_of_In, List.in_map_iff in Hline as (x & <- & _). reflexivity.
  - now rewrite lines_amounts, subtotal_lines.
  - intros Hexact. split.
    + apply Forall_forall. intros line Hline.
      apply list_elem_of_In, List.in_map_iff in Hline as (x & <- & Hx).
      apply lineAmount_exact. apply list_elem_of_In in Hx.
      pose proof (magnitude_member amount_of _ x Hx).
      unfold adds_up_exactly in Hexact. simpl fst. lia.
    + rewrite lines_amounts, (lineAmount_sum _ Hexact). f_equal.
      now apply subtotal_sum.
Qed.

Lemma drawer_lines_and_subtotal_witness :
  adds_up_exactly [Sample.towel; Sample.hand_towel] /\
  exists p,
    CartModal.render true [Sample.towel; Sample.hand_towel] = Some p /\
    CartModal.area p = CartModal.ItemList [(Sample.towel, 500); (Sample.hand_towel, 270)] /\
    CartModal.footer p = Some (500 + (270 + 0)).
Proof.
  assert (Hexact : adds_up_exactly [Sample.towel; Sample.hand_towel])
    by (vm_compute; discriminate).
  split; [exact Hexact|].
  destruct (drawer_lines_and_subtotal [Sample.towel; Sample.hand_towel])
    as (_ & p & Hp & Hlines).
  exists p. split; [exact Hp|].
  injection Hp as <-. split; [reflexivity|].
  cbn [CartModal.area] in Hlines.
  destruct Hlines as (_ & _ & _ & _ & Hsum).
  exact (proj2 (Hsum Hexact)).
Defined.



(** ** Removing from the cart *)

(** X13.  Removing by the same id twice is removing once, and removals by
    two ids commute: the cart and the stored cart end the same. *)
Theorem removeFromCart_idempotent_and_commutes
    (id1 id2 : string) (cart : list CartItem.t) (b : Browser.t) :
  exists once b1 twice b2 cartA bA cartB bB,
    Navbar.removeFromCart id1 cart b = (Ok once, b1) /\
    Navbar.removeFromCart id1 once b1 = (Ok twice, b2) /\
    twice = once /\ localStorage b2 = localStorage b1 /\
    (let! c := Navbar.removeFromCart id1 cart in Navbar.removeFromCart id2 c) b =
      (Ok cartA, bA) /\
    (let! c := Navbar.removeFromCart id2 cart in Navbar.removeFromCart id1 c) b =
      (Ok cartB, bB) /\
    cartA = cartB /\ localStorage bA = localStorage bB.
Proof.
  assert (Hidem : filter (fun item => CartItem.id item <> id1)
                    (filter (fun item => CartItem.id item <> id1) cart) =
                  filter (fun item => CartItem.id item <> id1) cart).
  { rewrite list_filter_filter. apply list_filter_iff. tauto. }
  assert (Hcomm : filter (fun item => CartItem.id item <> id2)
                    (filter (fun item => CartItem.id item <> id1) cart) =
                  filter (fun item => CartItem.id item <> id1)
                    (filter (fun item => CartItem.id item <> id2) cart)).
  { rewrite !list_filter_filter. apply list_filter_iff. tauto. }
  eexists _, _, _, _, _, _, _, _.
  split; [rewrite removeFromCart_run; reflexivity|].
  split; [rewrite removeFromCart_run; reflexivity|].
  split; [exact Hidem|].
  split; [cbn [localStorage]; rewrite Hidem; apply insert_insert_eq|].
  split; [unfold Browser.bind; rewrite removeFromCart_run; cbv beta iota zeta;
          rewrite removeFromCart_run; reflexivity|].
  split; [unfold Browser.bind; rewrite removeFromCart_run; cbv beta iota zeta;
          rewrite removeFromCart_run; reflexivity|].
  split; [exact Hcomm|].
  cbn [localStorage]. rewrite Hcomm. now rewrite !insert_insert_eq.
Qed.

(** ** The badge *)

Lemma badge_lower_bound cart (sum k : Z) :
  Forall (fun item => 1 <= quantity_of item) cart ->
  0 <= k <= sum ->
  Z.min (k + Z.of_nat (length cart)) (2 ^ 53) <=
  fold_left (fun sum item => JSNumber.add sum (JSNumber.value (CartItem.quantity item)))
            cart sum.
Proof.
  assert (Hp : 0 < 2 ^ 53) by reflexivity.
  intros H. revert sum k. induction H as [|item cart Hq Hcart IH]; intros sum k Hk.
  - simpl. lia.
  - cbn [fold_left length].
    assert (Hstep : Z.min (k + 1) (2 ^ 53) <=
                    JSNumber.add sum (JSNumber.value (CartItem.quantity item))).
    { apply JSNumberFacts.add_lower_bound; [lia|]. unfold quantity_of in Hq. lia. }
    assert (Hk' : 0 <= Z.min (k + 1) (2 ^ 53)) by lia.
    specialize (IH _ _ (conj Hk' Hstep)). lia.
Qed.

(** X14.  When every entry of the cart has a quantity of at least one, the
    badge count is at least the number of entries (of every cart of up to
    [2 ^ 53] entries; it is at least [2 ^ 53] on a longer list), and it is
    zero exactly when the cart is empty. *)
Theorem badge_counts_at_least_the_entries (cart : list CartItem.t) :
  Forall (fun item => 1 <= quantity_of item) cart ->
  Z.min (Z.of_nat (length cart)) (2 ^ 53) <= Navbar.cartItemsCount cart /\
  (Navbar.cartItemsCount cart = 0 <-> cart = []).
Proof.
  intros H.
  assert (Hlen : Z.min (Z.of_nat (length cart)) (2 ^ 53) <= Navbar.cartItemsCount cart).
  { apply (badge_lower_bound cart 0 0 H). lia. }
  split; [exact Hlen|]. split.
  - intros E. destruct cart; [reflexivity|]. simpl length in Hlen.
    assert (0 < 2 ^ 53) by reflexivity. lia.
  - intros ->. reflexivity.
Qed.

Lemma badge_counts_at_least_the_entries_witness :
  2 <= Navbar.cartItemsCount [Sample.towel; Sample.hand_towel].
Proof.
  apply (badge_counts_at_least_the_entries [Sample.towel; Sample.hand_towel]).
  repeat constructor; vm_compute; discriminate.
Defined.

(** ** The Navbar, event by event *)

Section NavbarPageFacts.
Import Navbar.

Variable addItemToCart : NewItem.t -> list CartItem.t -> list CartItem.t.
Variable loadCartFromStorage : M (list CartItem.t).

Local Abbreviation step := (Navbar.step addItemToCart loadCartFromStorage).
Local Abbreviation steps := (NavbarPage.steps addItemToCart loadCartFromStorage).
Local Abbreviation reachable := (Navbar.reachable addItemToCart loadCartFromStorage).

Lemma step_ClickRemove w st id :
  component w = Some st ->
  step (ClickRemove id) w =
  let updatedItems := filter (fun item => CartItem.id item <> id) (cartItems st) in
  let written := Codec.stringify_array Codec.encode_CartItem updatedItems in
  Ok (mkWorld
        (Browser.mk (<["cartItems" := written]> (localStorage (browser w)))
                    (trace (browser w) ++ [SetItem "cartItems" written]))
        (window_addToCart w) (storage_listener w)
        (Some (mk (isCartOpen st) updatedItems))).
Proof.
  intros Hst. simpl. rewrite Hst. unfold within. rewrite removeFromCart_run.
  cbv zeta. unfold setCartItems. now rewrite Hst.
Qed.

(** X15.  A click on a remove button changes the cart and the stored cart
    only: the drawer stays as it was, open or closed, the global function
    and the listener stay, the other keys of the storage keep their
    values, and afterwards the storage holds the cart of the component.
    Opening or closing the drawer changes neither the cart nor the
    storage. *)
Theorem remove_click_frame (w : world) (st : state) (id : string) (open : bool) :
  component w = Some st ->
  (exists w',
      step (ClickRemove id) w = Ok w' /\
      component w' =
        Some (mk (isCartOpen st)
                 (filter (fun item => CartItem.id item <> id) (cartItems st))) /\
      window_addToCart w' = window_addToCart w /\
      storage_listener w' = storage_listener w /\
      (forall key, key <> "cartItems"%string ->
         localStorage (browser w') !! key = localStorage (browser w) !! key) /\
      holds_cart (localStorage (browser w'))
        (filter (fun item => CartItem.id item <> id) (cartItems st))) /\
  step (SetCartOpen open) w =
    Ok (mkWorld (browser w) (window_addToCart w) (storage_listener w)
                (Some (mk open (cartItems st)))).
Proof.
  intros Hst. split.
  - rewrite (step_ClickRemove w st id Hst). cbv zeta. eexists. split; [reflexivity|].
    simpl. repeat split.
    + intros key Hkey. now rewrite lookup_insert_ne.
    + unfold holds_cart. now rewrite lookup_insert_eq.
  - simpl. now rewrite Hst.
Qed.

Lemma filter_not_in_nil (cart : list CartItem.t) :
  filter (fun item => CartItem.id item ∉ []) cart = cart.
Proof.
  induction cart as [|x l IH]; [reflexivity|].
  rewrite filter_cons, IH.
  destruct (decide (CartItem.id x ∉ [])) as [_|Hn]; [reflexivity|].
  exfalso. apply Hn, not_elem_of_nil.
Qed.

Lemma filter_not_in_cons id ids (cart : list CartItem.t) :
  filter (fun item => CartItem.id item ∉ ids)
    (filter (fun item => CartItem.id item <> id) cart) =
  filter (fun item => CartItem.id item ∉ id :: ids) cart.
Proof.
  rewrite list_filter_filter. apply list_filter_iff. intros x.
  rewrite not_elem_of_cons. tauto.
Qed.

Lemma filter_not_in_all (ids : list string) (cart : list CartItem.t) :
  (forall x, x ∈ cart -> CartItem.id x ∈ ids) ->
  filter (fun item => CartItem.id item ∉ ids) cart = [].
Proof.
  induction cart as [|x l IH]; intros H; [reflexivity|].
  rewrite filter_cons.
  destruct (decide (CartItem.id x ∉ ids)) as [Hn|_].
  - exfalso. apply Hn, H, list_elem_of_here.
  - apply IH. intros y Hy. apply H. now apply list_elem_of_further.
Qed.

Lemma remove_clicks (ids : list string) :
  forall w st,
    component w = Some st ->
    exists w',
      steps (ClickRemove <$> ids) w = Ok w' /\
      component w' =
        Some (mk (isCartOpen st)
                 (filter (fun item => CartItem.id item ∉ ids) (cartItems st))) /\
      (ids <> [] ->
       localStorage (browser w') !! "cartItems" =
         Some (Codec.stringify_array Codec.encode_CartItem
                 (filter (fun item => CartItem.id item ∉ ids) (cartItems st)))).
Proof.
  induction ids as [|id ids IH]; intros w st Hst.
  - exists w. split; [reflexivity|]. rewrite filter_not_in_nil.
    split; [destruct st; exact Hst | congruence].
  - rewrite fmap_cons. cbn [NavbarPage.steps].
    rewrite (step_ClickRemove w st id Hst). cbv zeta. cbn [rbind].
    match goal with
    | |- context [NavbarPage.steps _ _ _ ?w1] =>
        destruct (IH w1 (mk (isCartOpen st)
                           (filter (fun item => CartItem.id item <> id) (cartItems st)))
                    eq_refl) as (w' & Hsteps & Hcomp & Hstored)
    end.
    cbn [isCartOpen cartItems] in Hcomp, Hstored.
    rewrite filter_not_in_cons in Hcomp, Hstored.
    exists w'. split; [exact Hsteps|]. split; [exact Hcomp|]. intros _.
    destruct ids as [|id' ids']; [|apply Hstored; discriminate].
    simpl in Hsteps. injection Hsteps as <-. cbn [browser localStorage].
    rewrite lookup_insert_eq, <- filter_not_in_cons, filter_not_in_nil. reflexivity.
Qed.

(** X16.  Clicking the remove button of every entry empties the cart: the
    badge shows 0, the storage holds the empty cart, and the drawer, when
    open, stays open and shows the empty-cart message without footer. *)
Theorem removing_every_entry_empties_cart (w : world) (st : state) :
  component w = Some st ->
  cartItems st <> [] ->
  exists w',
    steps (ClickRemove <$> (CartItem.id <$> cartItems st)) w = Ok w' /\
    component w' = Some (mk (isCartOpen st) []) /\
    cartItemsCount [] = 0 /\
    localStorage (browser w') !! "cartItems" = Some "[]"%string /\
    (isCartOpen st = true ->
     NavbarPage.drawer w' = Some (CartModal.mkPanel CartModal.EmptyMessage None)).
Proof.
  intros Hst Hne.
  destruct (remove_clicks (CartItem.id <$> cartItems st) w st Hst)
    as (w' & Hsteps & Hcomp & Hstored).
  assert (E : filter (fun item => CartItem.id item ∉ CartItem.id <$> cartItems st)
                (cartItems st) = []).
  { apply filter_not_in_all. intros x Hx. now apply list_elem_of_fmap_2. }
  rewrite E in Hcomp, Hstored. exists w'. split; [exact Hsteps|].
  split; [exact Hcomp|]. split; [reflexivity|]. split.
  - apply Hstored. destruct (cartItems st); [congruence|discriminate].
  - intros Hopen. unfold NavbarPage.drawer. rewrite Hcomp. cbn [isCartOpen cartItems].
    rewrite Hopen. reflexivity.
Qed.

(** X17.  The 'storage' listener does not outlive the component: in every
    world the page can be in, a 'storage' event changes nothing while no
    Navbar is mounted, and the unmount of a mounted Navbar, which leaves
    the storage as it is, brings the page into such a world. *)
Theorem storage_event_ignored_when_unmounted (w : world) :
  reachable w ->
  (component w = None -> step StorageEvent w = Ok w) /\
  (forall st,
      component w = Some st ->
      storage_listener w = true /\
      exists w',
        step Unmount w = Ok w' /\
        browser w' = browser w /\
        storage_listener w' = false /\
        step StorageEvent w' = Ok w').
Proof.
  intros Hw. apply reachable_attached in Hw. unfold attached in Hw. split.
  - intros Hnone. rewrite Hnone in Hw. destruct Hw as [_ Hlis].
    simpl. now rewrite Hlis.
  - intros st Hst. rewrite Hst in Hw. destruct Hw as [_ Hlis]. split; [exact Hlis|].
    eexists. simpl. rewrite Hst. split; [reflexivity|]. simpl. auto.
Qed.

End NavbarPageFacts.

Lemma remove_click_frame_witness :
  exists w',
    Navbar.step Sample.append_item CartUtils.loadCartFromStorage
      (Navbar.ClickRemove "t1") Sample.shopping = Ok w' /\
    Navbar.component w' = Some (Navbar.mk true [Sample.hand_towel]).
Proof.
  destruct (remove_click_frame Sample.append_item CartUtils.loadCartFromStorage
              Sample.shopping (Navbar.mk true [Sample.towel; Sample.hand_towel])
              "t1" false eq_refl) as [(w' & Hstep & Hcomp & _) _].
  exists w'. split; [exact Hstep|]. rewrite Hcomp. reflexivity.
Defined.

Lemma removing_every_entry_empties_cart_witness :
  exists w',
    NavbarPage.steps Sample.append_item CartUtils.loadCartFromStorage
      [Navbar.ClickRemove "t1"; Navbar.ClickRemove "t2"] Sample.shopping = Ok w' /\
    NavbarPage.drawer w' = Some (CartModal.mkPanel CartModal.EmptyMessage None).
Proof.
  destruct (removing_every_entry_empties_cart Sample.append_item
              CartUtils.loadCartFromStorage Sample.shopping
              (Navbar.mk true [Sample.towel; Sample.hand_towel]) eq_refl)
    as (w' & Hsteps & _ & _ & _ & Hdrawer).
  - discriminate.
  - exists w'. split; [exact Hsteps|]. apply Hdrawer. reflexivity.
Defined.

Lemma storage_event_ignored_when_unmounted_witness :
  Navbar.step Sample.append_item CartUtils.loadCartFromStorage Navbar.StorageEvent
    (Sample.run [Navbar.Mount; Navbar.Unmount] (Navbar.initial_world ∅)) =
  Ok (Sample.run [Navbar.Mount; Navbar.Unmount] (Navbar.initial_world ∅)).
Proof.
  apply (storage_event_ignored_when_unmounted Sample.append_item
           CartUtils.loadCartFromStorage
           (Sample.run [Navbar.Mount; Navbar.Unmount] (Navbar.initial_world ∅))).
  - apply run_reachable, Navbar.reachable_initial.
  - reflexivity.
Defined.
